(** * GeoAI desktop: streaming chat client and backend supervisor

    A shallow embedding of
    - [ChatInterface] (frontend/my-app/app/components/ChatInterface.tsx):
      [handleSubmit] with its carry-over buffer loop and the updates it
      makes to the message list, and [handleStop];
    - the backend supervision of the Electron main process (main.js):
      [stopBackend] and the ['exit'] handler installed by [startBackend].

    JavaScript values are modelled as the code sees them: strings are
    sequences of UTF-16 code units, the record decoded from a line is an
    arbitrary JSON value (the code types it [any]), exceptions are explicit
    completions.  What the code takes from the platform ([JSON.parse],
    [TextDecoder], the text of engine error messages, number formatting) is
    a parameter of the development, gathered in the class [Platform]; a
    reference instance is given so that every definition can be run. *)

From Stdlib Require Import Strings.String Strings.Ascii Strings.Byte.
From Stdlib Require Import DecimalString.
From Stdlib Require Import NArith ZArith Lia Bool List.
Import ListNotations.

Set Warnings "-register-all".

(** ** JavaScript strings *)

Module JSString.

(** A string is its sequence of UTF-16 code units. *)
Definition jsstring := list N.

(** A literal, from its ASCII spelling. *)
Definition lit (s : string) : jsstring :=
  map N_of_ascii (list_ascii_of_string s).

Fixpoint eqb (a b : jsstring) : bool :=
  match a, b with
  | [], [] => true
  | x :: a', y :: b' => N.eqb x y && eqb a' b'
  | _, _ => false
  end.

Definition LF : N := 10%N.

(** [s.split('\n')]: never empty; the last element is what follows the
    last newline. *)
Fixpoint split (s : jsstring) : list jsstring :=
  match s with
  | [] => [[]]
  | c :: s' =>
      if N.eqb c LF then [] :: split s'
      else match split s' with
           | [] => [[c]]
           | h :: t => (c :: h) :: t
           end
  end.

(** WhiteSpace and LineTerminator code units, as [trim] strips them. *)
Definition is_space (c : N) : bool :=
  ((9 <=? c) && (c <=? 13) || (c =? 32) || (c =? 160) || (c =? 5760)
   || (8192 <=? c) && (c <=? 8202) || (c =? 8232) || (c =? 8233)
   || (c =? 8239) || (c =? 8287) || (c =? 12288) || (c =? 65279))%N.

Fixpoint trimStart (s : jsstring) : jsstring :=
  match s with
  | [] => []
  | c :: s' => if is_space c then trimStart s' else s
  end.

Definition trimEnd (s : jsstring) : jsstring := rev (trimStart (rev s)).

Definition trim (s : jsstring) : jsstring := trimEnd (trimStart s).

Fixpoint startsWith (s prefix : jsstring) : bool :=
  match prefix, s with
  | [], _ => true
  | _ :: _, [] => false
  | p :: prefix', c :: s' => N.eqb c p && startsWith s' prefix'
  end.

(** The complete lines of a text: all that [split] gives but the last,
    which [lines.pop()] takes away. *)
Definition complete_lines (text : jsstring) : list jsstring :=
  removelast (split text).

(** [s.slice(n)] for a non-negative [n]. *)
Definition slice (n : nat) (s : jsstring) : jsstring := skipn n s.

End JSString.
Import JSString.

(** ** Results of platform operations and completions of statements *)

(** A platform operation returns a value or throws an [Error] whose
    [message] is kept. *)
Inductive result (A : Type) : Type :=
| Ok (a : A)
| Err (message : jsstring).
Arguments Ok {A} a.
Arguments Err {A} message.

(** Completion of a piece of [handleSubmit] running on a state [S]:
    - [Normal s]: ran to its end;
    - [Throw message s]: threw an [Error] with that message, after the
      state changes already made;
    - [RenderCrash]: a [setMessages] updater itself threw.  React runs the
      updater outside the [try] of [handleSubmit], so no [catch] of the
      component sees that error. *)
Inductive completion (S : Type) : Type :=
| Normal (s : S)
| Throw (message : jsstring) (s : S)
| RenderCrash.
Arguments Normal {S} s.
Arguments Throw {S} message s.
Arguments RenderCrash {S}.

(** The state a completion leaves, if any. *)
Definition final {S : Type} (c : completion S) : option S :=
  match c with
  | Normal s => Some s
  | Throw _ s => Some s
  | RenderCrash => None
  end.

Definition map_completion {A B : Type} (f : A -> B) (c : completion A)
  : completion B :=
  match c with
  | Normal a => Normal (f a)
  | Throw m a => Throw m (f a)
  | RenderCrash => RenderCrash
  end.

Definition andThen {S : Type} (c : completion S) (k : S -> completion S)
  : completion S :=
  match c with
  | Normal s => k s
  | Throw m s => Throw m s
  | RenderCrash => RenderCrash
  end.

(** ** JSON values *)

Module Json.

(** What [JSON.parse] returns.  An object keeps its members in source
    order; on a repeated key the later member is the property. *)
Inductive json (number : Type) : Type :=
| JNull
| JBool (b : bool)
| JNum (n : number)
| JStr (s : jsstring)
| JArr (items : list (json number))
| JObj (members : list (jsstring * json number)).
Arguments JNull {number}.
Arguments JBool {number} b.
Arguments JNum {number} n.
Arguments JStr {number} s.
Arguments JArr {number} items.
Arguments JObj {number} members.

Section Access.
Variable number : Type.
Local Abbreviation value := (json number).

Fixpoint lookup (key : jsstring) (members : list (jsstring * value))
  : option value :=
  match members with
  | [] => None
  | (k, v) :: rest =>
      match lookup key rest with
      | Some v' => Some v'
      | None => if JSString.eqb k key then Some v else None
      end
  end.

(** [data.key] for one of the keys the component reads ([type],
    [sources], [content], [error], [done]): none of them is on a
    prototype, so the property is the own property of an object and
    [undefined] ([None]) otherwise.  Reading a property of [null] is
    the caller's business (it throws). *)
Definition get (data : value) (key : jsstring) : option value :=
  match data with
  | JObj members => lookup key members
  | _ => None
  end.

(** [x === 'text'] *)
Definition is_string (x : option value) (text : jsstring) : bool :=
  match x with
  | Some (JStr s) => JSString.eqb s text
  | _ => false
  end.

End Access.
Arguments lookup {number} key members.
Arguments get {number} data key.
Arguments is_string {number} x text.

End Json.
Import Json.

(** ** The platform *)

Class Platform : Type := {
  (** the Number type, its ToBoolean and its ToString *)
  number : Type;
  Number_truthy : number -> bool;
  Number_toString : number -> jsstring;
  (** [JSON.parse]; [Err] carries the message of the SyntaxError *)
  JSON_parse : jsstring -> result (json number);
  (** message of the TypeError of reading a property of [null] *)
  msg_property_of_null : jsstring;
  (** message of the TypeError of an object without a primitive value *)
  msg_no_primitive : jsstring;
  (** [new TextDecoder()]: a UTF-8 decoder consuming bytes one at a time;
      with [{stream: true}] its state is kept from one call to the next *)
  decoder_state : Type;
  decoder_init : decoder_state;
  decoder_byte : decoder_state -> byte -> decoder_state * jsstring
}.

Module Coercions.
Section WithPlatform.
Context {P : Platform}.
Local Abbreviation value := (json number).

(** ToBoolean *)
Definition truthy (x : option value) : bool :=
  match x with
  | None => false
  | Some JNull => false
  | Some (JBool b) => b
  | Some (JNum n) => Number_truthy n
  | Some (JStr s) => match s with [] => false | _ => true end
  | Some (JArr _) => true
  | Some (JObj _) => true
  end.

Definition join_with (sep : jsstring) (parts : list jsstring) : jsstring :=
  match parts with
  | [] => []
  | p :: rest => p ++ flat_map (fun q => sep ++ q) rest
  end.

Fixpoint sequence (rs : list (result jsstring)) : result (list jsstring) :=
  match rs with
  | [] => Ok []
  | Err m :: _ => Err m
  | Ok s :: rest =>
      match sequence rest with
      | Ok ss => Ok (s :: ss)
      | Err m => Err m
      end
  end.

(** ToString of a parsed value.  An array is joined with commas, [null]
    items giving the empty string.  An object is ["[object Object]"]
    unless it has a member [toString]: that member is not callable, and
    neither is anything reached through [valueOf], so the conversion
    throws a TypeError. *)
Fixpoint ToString (x : value) : result jsstring :=
  match x with
  | JNull => Ok (lit "null")
  | JBool true => Ok (lit "true")
  | JBool false => Ok (lit "false")
  | JNum n => Ok (Number_toString n)
  | JStr s => Ok s
  | JArr items =>
      match sequence (map (fun item =>
                             match item with
                             | JNull => Ok []
                             | _ => ToString item
                             end) items) with
      | Ok parts => Ok (join_with (lit ",") parts)
      | Err m => Err m
      end
  | JObj members =>
      match lookup (lit "toString") members with
      | Some _ => Err msg_no_primitive
      | None => Ok (lit "[object Object]")
      end
  end.

End WithPlatform.
End Coercions.
Import Coercions.

(** ** ChatInterface.tsx *)

Module Chat.
Section WithPlatform.
Context {P : Platform}.
Local Abbreviation value := (json number).

Inductive Role : Type := assistant | user.

(** [interface Message].  [sources] holds whatever [data.sources] was;
    an absent or [undefined] property is [None]. *)
Record Message : Type := {
  role : Role;
  content : jsstring;
  sources : option value;
  isThinking : option bool
}.

(** A call of [fetch]: the address, the method and the [message] of the
    JSON body. *)
Record request : Type := {
  url : jsstring;
  method : jsstring;
  body_message : jsstring
}.

(** The state of the component that [handleSubmit] and [handleStop]
    touch: the [messages] of the parent, the [useState] cells [error],
    [isProcessing] and [isThinking] (here [ui_isThinking], the name
    being taken by the field of [Message]), and the requests issued so
    far. *)
Record State : Type := {
  messages : list Message;
  error : option jsstring;
  isProcessing : bool;
  ui_isThinking : bool;
  sent : list request
}.

(** [setMessages(updater)].  The updater is applied where it is called:
    React queues the updaters and runs them in the order of the calls, so
    this is the list it commits once those queued so far have run. *)
Definition setMessages (f : list Message -> list Message) (st : State) : State :=
  {| messages := f (messages st); error := error st;
     isProcessing := isProcessing st; ui_isThinking := ui_isThinking st;
     sent := sent st |}.

Definition setError (e : option jsstring) (st : State) : State :=
  {| messages := messages st; error := e;
     isProcessing := isProcessing st; ui_isThinking := ui_isThinking st;
     sent := sent st |}.

Definition setIsProcessing (b : bool) (st : State) : State :=
  {| messages := messages st; error := error st;
     isProcessing := b; ui_isThinking := ui_isThinking st;
     sent := sent st |}.

Definition setIsThinking (b : bool) (st : State) : State :=
  {| messages := messages st; error := error st;
     isProcessing := isProcessing st; ui_isThinking := b;
     sent := sent st |}.

Definition fetch (r : request) (st : State) : State :=
  {| messages := messages st; error := error st;
     isProcessing := isProcessing st; ui_isThinking := ui_isThinking st;
     sent := sent st ++ [r] |}.

(** The locals of one run of [handleSubmit] next to the state. *)
Record Turn : Type := {
  state : State;
  messageContent : jsstring
}.

(** The updaters of the stream loop:
    [const newMessages = [...prev];
     const lastMessage = newMessages[newMessages.length - 1];
     if (lastMessage.role === 'assistant') { ... }
     return newMessages].
    On an empty list [lastMessage] is [undefined] and reading its
    [role] throws: [None]. *)
Fixpoint update_last (f : Message -> Message) (prev : list Message)
  : option (list Message) :=
  match prev with
  | [] => None
  | [lastMessage] =>
      Some [match role lastMessage with
            | assistant => f lastMessage
            | user => lastMessage
            end]
  | m :: rest =>
      match update_last f rest with
      | Some rest' => Some (m :: rest')
      | None => None
      end
  end.

Definition setMessages_last (f : Message -> Message) (t : Turn)
  : completion Turn :=
  match update_last f (messages (state t)) with
  | Some l => Normal {| state := setMessages (fun _ => l) (state t);
                        messageContent := messageContent t |}
  | None => RenderCrash
  end.

(** [lastMessage.sources = data.sources; lastMessage.isThinking = true] *)
Definition with_sources (s : option value) (m : Message) : Message :=
  {| role := role m; content := content m; sources := s;
     isThinking := Some true |}.

(** [lastMessage.isThinking = false; lastMessage.content = messageContent] *)
Definition with_content (c : jsstring) (m : Message) : Message :=
  {| role := role m; content := c; sources := sources m;
     isThinking := Some false |}.

(** [data.error || 'Unknown error occurred'], as the message of the
    [Error] built from it. *)
Definition error_message (data : value) : result jsstring :=
  match get data (lit "error") with
  | Some e =>
      if truthy (Some e) then ToString e
      else Ok (lit "Unknown error occurred")
  | None => Ok (lit "Unknown error occurred")
  end.

(** The body of the [try] after [JSON.parse]: the chain of tests on
    [data.type]. *)
Definition dispatch (data : value) (t : Turn) : completion Turn :=
  match data with
  | JNull => Throw msg_property_of_null t
  | _ =>
      let type := get data (lit "type") in
      if is_string type (lit "sources") then
        setMessages_last (with_sources (get data (lit "sources"))) t
      else if is_string type (lit "token") then
        match get data (lit "content") with
        | None => Normal t
        | Some c =>
            match ToString c with
            | Err m => Throw m t
            | Ok s =>
                let messageContent' := messageContent t ++ s in
                setMessages_last (with_content messageContent')
                  {| state := state t; messageContent := messageContent' |}
            end
        end
      else if is_string type (lit "error") then
        match error_message data with
        | Ok m => Throw m t
        | Err m => Throw m t
        end
      else if is_string type (lit "done") || truthy (get data (lit "done")) then
        Normal {| state := setIsProcessing false (state t);
                  messageContent := messageContent t |}
      else Normal t
  end.

(** What a line holds: nothing of interest, or the outcome of
    [JSON.parse] on what follows the marker in the trimmed line. *)
Definition decode_line (line : jsstring) : option (result value) :=
  let trimmedLine := trim line in
  if startsWith trimmedLine (lit "data: ")
  then Some (JSON_parse (slice 6 trimmedLine))
  else None.

(** A decoded record, or the failure to decode one, applied to the
    turn.  The inner [catch] rethrows what it caught. *)
Definition apply_record (r : result value) (t : Turn) : completion Turn :=
  match r with
  | Ok data => dispatch data t
  | Err m => Throw m t
  end.

(** The body of [for (const line of lines)]. *)
Definition process_line (line : jsstring) (t : Turn) : completion Turn :=
  match decode_line line with
  | Some r => apply_record r t
  | None => Normal t
  end.

(** [decoder.decode(value, { stream: true })] *)
Fixpoint decode (d : decoder_state) (value : list byte)
  : decoder_state * jsstring :=
  match value with
  | [] => (d, [])
  | b :: rest =>
      let (d1, s1) := decoder_byte d b in
      let (d2, s2) := decode d1 rest in
      (d2, s1 ++ s2)
  end.

(** The locals [decoder] and [buffer]. *)
Record Reader : Type := {
  decoder : decoder_state;
  buffer : jsstring
}.

Definition new_reader : Reader :=
  {| decoder := decoder_init; buffer := [] |}.

Section Loop.
(** The read loop, for any body of the [for] over the lines. *)
Variable S : Type.
Variable body : jsstring -> S -> completion S.

Fixpoint for_lines (lines : list jsstring) (s : S) : completion S :=
  match lines with
  | [] => Normal s
  | line :: rest => andThen (body line s) (for_lines rest)
  end.

(** One iteration of [while (true)] on a chunk [value]:
    [buffer += decoder.decode(value, { stream: true });
     const lines = buffer.split('\n');
     buffer = lines.pop() || '';
     for (const line of lines) ...] *)
Definition on_chunk (value : list byte) (r : Reader) (s : S)
  : Reader * completion S :=
  let (d, text) := decode (decoder r) value in
  let lines := split (buffer r ++ text) in
  ({| decoder := d; buffer := last lines [] |},
   for_lines (removelast lines) s).

(** The loop over the chunks the reader delivers before [done]. *)
Fixpoint read_loop (chunks : list (list byte)) (r : Reader) (s : S)
  : completion S :=
  match chunks with
  | [] => Normal s
  | value :: rest =>
      let (r', c) := on_chunk value r s in
      andThen c (read_loop rest r')
  end.
End Loop.
Arguments for_lines {S} body lines s.
Arguments on_chunk {S} body value r s.
Arguments read_loop {S} body chunks r s.

(** The records the loop decodes from a stream of chunks, in order;
    a line that fails to parse is the last one. *)
Definition collect (line : jsstring) (acc : list (result value))
  : completion (list (result value)) :=
  match decode_line line with
  | Some (Ok data) => Normal (acc ++ [Ok data])
  | Some (Err m) => Throw m (acc ++ [Err m])
  | None => Normal acc
  end.

Definition decoded (c : completion (list (result value)))
  : list (result value) :=
  match c with
  | Normal l => l
  | Throw _ l => l
  | RenderCrash => []
  end.

Definition stream_events (chunks : list (list byte)) : list (result value) :=
  decoded (read_loop collect chunks new_reader []).

(** Records applied one after the other, up to the first that throws. *)
Fixpoint apply_events (events : list (result value)) (t : Turn)
  : completion Turn :=
  match events with
  | [] => Normal t
  | e :: rest => andThen (apply_record e t) (apply_events rest)
  end.

(** How the byte stream ends: [reader.read()] reports [done], or
    rejects. *)
Inductive ending : Type :=
| Eof
| ReadRejects (message : jsstring).

(** What the request meets. *)
Inductive response : Type :=
| FetchRejects (message : jsstring)
| NotOk
| NoBody
| Body (chunks : list (list byte)) (e : ending).

(** The [catch] of the inner [try]. *)
Definition on_catch (message : jsstring) (st : State) : State :=
  setIsProcessing false
    (setMessages (@removelast Message) (setError (Some message) st)).

(** How the inner [try] ends once the loop is left. *)
Definition finish (e : ending) (c : completion Turn) : option State :=
  match c with
  | Normal t =>
      match e with
      | Eof => Some (setIsProcessing false (state t))
      | ReadRejects m => Some (on_catch m (state t))
      end
  | Throw m t => Some (on_catch m (state t))
  | RenderCrash => None
  end.

Definition user_message (message : jsstring) : Message :=
  {| role := user; content := message; sources := None; isThinking := None |}.

Definition placeholder : Message :=
  {| role := assistant; content := []; sources := None;
     isThinking := Some true |}.

(** [handleSubmit] up to the [fetch]. *)
Definition begin_turn (message baseUrl : jsstring) (st : State) : State :=
  let st := setError None st in
  let st := setIsProcessing true st in
  let st := setMessages (fun prev => prev ++ [user_message message]) st in
  let st := setMessages (fun prev => prev ++ [placeholder]) st in
  fetch {| url := baseUrl ++ lit "/chat/stream"; method := lit "POST";
           body_message := message |} st.

(** [handleSubmit], for the text of the textarea (which is mounted), the
    address [getBaseUrl] gives and what the request meets.  [None]: an
    updater threw while React rendered. *)
Definition handleSubmit (text baseUrl : jsstring) (resp : response)
           (st : State) : option State :=
  let message := trim text in
  if match message with [] => true | _ => false end || isProcessing st
  then Some st
  else
    let st := begin_turn message baseUrl st in
    match resp with
    | FetchRejects m => Some (on_catch m st)
    | NotOk => Some (on_catch (lit "Failed to get response") st)
    | NoBody => Some (on_catch (lit "No response body") st)
    | Body chunks e =>
        finish e (read_loop process_line chunks new_reader
                    {| state := st; messageContent := [] |})
    end.

Definition handleStop (st : State) : State :=
  setIsProcessing false (setIsThinking false st).

(** [data.type === name] *)
Definition has_type (data : value) (name : jsstring) : bool :=
  is_string (get data (lit "type")) name.

(** The message of what a record of type [error] throws. *)
Definition thrown_message (data : value) : jsstring :=
  match error_message data with
  | Ok m => m
  | Err m => m
  end.

(** A decoded record of type [sources]. *)
Definition is_sources (r : result value) : bool :=
  match r with
  | Ok data => has_type data (lit "sources")
  | Err _ => false
  end.

(** A decoded record of type [token] whose [content] is not
    [undefined]. *)
Definition is_token (r : result value) : bool :=
  match r with
  | Ok data =>
      has_type data (lit "token")
      && match get data (lit "content") with Some _ => true | None => false end
  | Err _ => false
  end.

(** The records of the protocol, as [JSON.parse] returns them. *)
Definition ev_sources (list : value) : value :=
  JObj [(lit "type", JStr (lit "sources")); (lit "sources", list)].

Definition ev_token (text : jsstring) : value :=
  JObj [(lit "type", JStr (lit "token")); (lit "content", JStr text)].

Definition ev_done : value :=
  JObj [(lit "type", JStr (lit "done"))].

Definition ev_error (text : jsstring) : value :=
  JObj [(lit "type", JStr (lit "error")); (lit "error", JStr text)].

(** [[{source: "a.pdf", path: "/x/a.pdf"}]] *)
Definition a_pdf : value :=
  JArr [JObj [(lit "source", JStr (lit "a.pdf"));
              (lit "path", JStr (lit "/x/a.pdf"))]].

(** What happens while a stream is open: the reader delivers a chunk,
    or the user presses the stop button. *)
Inductive action : Type :=
| Read (value : list byte)
| Stop.

Fixpoint run (actions : list action) (r : Reader) (t : Turn)
  : completion Turn :=
  match actions with
  | [] => Normal t
  | Read value :: rest =>
      let (r', c) := on_chunk process_line value r t in
      andThen c (run rest r')
  | Stop :: rest =>
      run rest r {| state := handleStop (state t);
                    messageContent := messageContent t |}
  end.

(** What a turn shows and has sent, the two flags of the buttons left
    aside: the messages, the error, the requests, and the text
    accumulated. *)
Definition visible (t : Turn)
  : list Message * option jsstring * list request * jsstring :=
  (messages (state t), error (state t), sent (state t), messageContent t).

(** Two completions that agree on what is visible. *)
Definition alike (c c' : completion Turn) : Prop :=
  match c, c' with
  | Normal t, Normal t' => visible t = visible t'
  | Throw m t, Throw m' t' => m = m' /\ visible t = visible t'
  | RenderCrash, RenderCrash => True
  | _, _ => False
  end.

(** A completion that leaves the requests sent at [s0]. *)
Definition keeps_sent (s0 : list request) (c : completion Turn) : Prop :=
  match final c with
  | Some t => sent (state t) = s0
  | None => True
  end.

(** The chunks among the actions. *)
Fixpoint reads (actions : list action) : list (list byte) :=
  match actions with
  | [] => []
  | Read value :: rest => value :: reads rest
  | Stop :: rest => reads rest
  end.

End WithPlatform.
Arguments for_lines {S} body lines s.
Arguments on_chunk {P S} body value r s.
Arguments read_loop {P S} body chunks r s.
End Chat.
Import Chat.

(** ** main.js: supervision of the backend process *)

Module Supervisor.

(** [mainWindow]: a BrowserWindow, destroyed or not. *)
Record BrowserWindow : Type := { isDestroyed : bool }.

(** What [setTimeout] is given. *)
Inductive callback : Type := startBackend.

Record timer : Type := { handler : callback; delay_ms : N }.

(** The globals of main.js, the timers pending and the signals sent to
    child processes (pid and signal name). *)
Record Main : Type := {
  mainWindow : option BrowserWindow;
  backendProcess : option N;
  backendPort : N;
  backendReady : bool;
  timers : list timer;
  signals : list (N * jsstring)
}.

(** [mainWindow && !mainWindow.isDestroyed()] *)
Definition window_alive (m : Main) : bool :=
  match mainWindow m with
  | Some w => negb (isDestroyed w)
  | None => false
  end.

(** [backendProcess.on('exit', (code, signal) => { ... })].  The handler
    stays attached to the process it was installed on; [code] and
    [signal] are [null] ([None]) when the other one is set. *)
Definition on_exit (code : option Z) (signal : option jsstring) (m : Main) : Main :=
  let m1 := {| mainWindow := mainWindow m; backendProcess := backendProcess m;
               backendPort := backendPort m; backendReady := false;
               timers := timers m; signals := signals m |} in
  if window_alive m1
  then {| mainWindow := mainWindow m1; backendProcess := backendProcess m1;
          backendPort := backendPort m1; backendReady := backendReady m1;
          timers := timers m1 ++ [{| handler := startBackend; delay_ms := 5000 |}];
          signals := signals m1 |}
  else m1.

(** [function stopBackend()] *)
Definition stopBackend (m : Main) : Main :=
  match backendProcess m with
  | Some pid =>
      {| mainWindow := mainWindow m; backendProcess := None;
         backendPort := backendPort m; backendReady := false;
         timers := timers m;
         signals := signals m ++ [(pid, lit "SIGTERM")] |}
  | None => m
  end.

(** [mainWindow.on('closed', () => { mainWindow = null })] *)
Definition on_closed (m : Main) : Main :=
  {| mainWindow := None; backendProcess := backendProcess m;
     backendPort := backendPort m; backendReady := backendReady m;
     timers := timers m; signals := signals m |}.

(** A restart of the backend is pending. *)
Definition restart_pending (m : Main) : bool :=
  existsb (fun t => match handler t with startBackend => true end) (timers m).

End Supervisor.

(** ** A reference platform

    A UTF-8 decoder after the Encoding standard and a JSON parser after
    ECMA-404, so that the definitions above run on bytes.  Numbers are
    kept as exact decimals. *)

Module Reference.

Definition code (a : ascii) : N := N_of_ascii a.

(** *** TextDecoder *)

Record utf8 : Type := {
  bom_seen : bool;
  code_point : N;
  bytes_seen : N;
  bytes_needed : N;
  lower_boundary : N;
  upper_boundary : N
}.

Definition utf8_init : utf8 :=
  {| bom_seen := false; code_point := 0; bytes_seen := 0; bytes_needed := 0;
     lower_boundary := 128; upper_boundary := 191 |}.

Definition utf8_reset (st : utf8) : utf8 :=
  {| bom_seen := bom_seen st; code_point := 0; bytes_seen := 0;
     bytes_needed := 0; lower_boundary := 128; upper_boundary := 191 |}.

Definition expect (st : utf8) (needed cp lower upper : N) : utf8 :=
  {| bom_seen := bom_seen st; code_point := cp; bytes_seen := 0;
     bytes_needed := needed; lower_boundary := lower; upper_boundary := upper |}.

Definition REPLACEMENT : N := 65533.

(** The handler on a byte when no sequence is open: the state after it
    and the code points emitted. *)
Definition utf8_lead (st : utf8) (b : N) : utf8 * list N :=
  (if b <=? 127 then (st, [b])
   else if (194 <=? b) && (b <=? 223) then (expect st 1 (N.land b 31) 128 191, [])
   else if (224 <=? b) && (b <=? 239) then
     (expect st 2 (N.land b 15)
        (if b =? 224 then 160 else 128) (if b =? 237 then 159 else 191), [])
   else if (240 <=? b) && (b <=? 244) then
     (expect st 3 (N.land b 7)
        (if b =? 240 then 144 else 128) (if b =? 244 then 143 else 191), [])
   else (st, [REPLACEMENT]))%N.

Definition utf8_handler (st : utf8) (b : N) : utf8 * list N :=
  (if bytes_needed st =? 0 then utf8_lead st b
   else if (b <? lower_boundary st) || (upper_boundary st <? b) then
     (* the byte is put back and read again with the state reset *)
     let (st', out) := utf8_lead (utf8_reset st) b in
     (st', REPLACEMENT :: out)
   else
     let cp := N.lor (N.shiftl (code_point st) 6) (N.land b 63) in
     let seen := bytes_seen st + 1 in
     if seen =? bytes_needed st then (utf8_reset st, [cp])
     else ({| bom_seen := bom_seen st; code_point := cp; bytes_seen := seen;
              bytes_needed := bytes_needed st;
              lower_boundary := 128; upper_boundary := 191 |}, []))%N.

(** A code point as UTF-16 code units. *)
Definition utf16 (cp : N) : jsstring :=
  (if cp <? 65536 then [cp]
   else let c := cp - 65536 in [55296 + c / 1024; 56320 + c mod 1024])%N.

(** The output of the decoder, a leading byte order mark dropped. *)
Fixpoint emit (seen : bool) (cps : list N) : bool * jsstring :=
  match cps with
  | [] => (seen, [])
  | cp :: rest =>
      let (seen', out) := emit true rest in
      (seen', if negb seen && (cp =? 65279)%N then out else utf16 cp ++ out)
  end.

Definition utf8_byte (st : utf8) (b : byte) : utf8 * jsstring :=
  let (st1, cps) := utf8_handler st (Byte.to_N b) in
  let (seen, out) := emit (bom_seen st1) cps in
  ({| bom_seen := seen; code_point := code_point st1;
      bytes_seen := bytes_seen st1; bytes_needed := bytes_needed st1;
      lower_boundary := lower_boundary st1;
      upper_boundary := upper_boundary st1 |}, out).

(** *** Numbers *)

(** [digits] times ten to the [exponent], negated if [negative]. *)
Record decimal : Type := { negative : bool; digits : N; exponent : Z }.

(** ToBoolean of the double nearest to the decimal: false when it rounds
    to zero, which is at or below 2^-1075. *)
Definition decimal_truthy (d : decimal) : bool :=
  if (digits d =? 0)%N then false
  else if (0 <=? exponent d)%Z then true
  else (10 ^ (- exponent d) <? Z.of_N (digits d) * 2 ^ 1075)%Z.

Definition decimal_of_N (n : N) : jsstring :=
  lit (NilZero.string_of_uint (N.to_uint n)).

(** The text of a number.  It is what an engine prints for the integers
    below 2^53 written without exponent; other numbers keep their decimal
    form, which is not the shortest form an engine prints. *)
Definition decimal_toString (d : decimal) : jsstring :=
  (if negative d && negb (digits d =? 0)%N then lit "-" else [])
    ++ decimal_of_N (digits d)
    ++ (if (exponent d =? 0)%Z then []
        else lit "e" ++ (if (exponent d <? 0)%Z then lit "-" else [])
               ++ decimal_of_N (Z.abs_N (exponent d))).

(** *** JSON.parse *)

Local Abbreviation value := (json decimal).

Definition is_ws (c : N) : bool :=
  ((c =? 32) || (c =? 9) || (c =? 10) || (c =? 13))%N.

Fixpoint skip_ws (s : jsstring) : jsstring :=
  match s with
  | c :: s' => if is_ws c then skip_ws s' else s
  | [] => []
  end.

Definition digit (c : N) : option N :=
  (if (48 <=? c) && (c <=? 57) then Some (c - 48) else None)%N.

Definition hex (c : N) : option N :=
  (if (48 <=? c) && (c <=? 57) then Some (c - 48)
   else if (65 <=? c) && (c <=? 70) then Some (c - 55)
   else if (97 <=? c) && (c <=? 102) then Some (c - 87)
   else None)%N.

(** The digits at the head of [s], most significant first. *)
Fixpoint take_digits (s : jsstring) : list N * jsstring :=
  match s with
  | c :: s' =>
      match digit c with
      | Some d => let (ds, rest) := take_digits s' in (d :: ds, rest)
      | None => ([], s)
      end
  | [] => ([], [])
  end.

Definition digits_value (ds : list N) : N :=
  fold_left (fun acc d => 10 * acc + d)%N ds 0%N.

Definition QUOTE : N := 34.
Definition BACKSLASH : N := 92.

(** The character an escape of one letter stands for. *)
Definition escape (e : N) : option N :=
  (if e =? QUOTE then Some QUOTE
   else if e =? BACKSLASH then Some BACKSLASH
   else if e =? code "/" then Some (code "/")
   else if e =? code "b" then Some 8
   else if e =? code "f" then Some 12
   else if e =? code "n" then Some 10
   else if e =? code "r" then Some 13
   else if e =? code "t" then Some 9
   else None)%N.

(** The characters of a string after its opening quote, up to the
    closing one. *)
Fixpoint string_body (s : jsstring) : option (jsstring * jsstring) :=
  let more (c : N) (rest : jsstring) :=
    match string_body rest with
    | Some (body, after) => Some (c :: body, after)
    | None => None
    end in
  match s with
  | [] => None
  | c :: s1 =>
      if (c =? QUOTE)%N then Some ([], s1)
      else if (c <? 32)%N then None
      else if (c =? BACKSLASH)%N then
        match s1 with
        | [] => None
        | e :: s2 =>
            if (e =? code "u")%N then
              match s2 with
              | h1 :: h2 :: h3 :: h4 :: s3 =>
                  match hex h1, hex h2, hex h3, hex h4 with
                  | Some a, Some b, Some c, Some d =>
                      more (a * 4096 + b * 256 + c * 16 + d)%N s3
                  | _, _, _, _ => None
                  end
              | _ => None
              end
            else
              match escape e with
              | Some v => more v s2
              | None => None
              end
        end
      else more c s1
  end.

(** A number: [-]? int frac? exp?, where int has no leading zero. *)
Definition parse_number (s : jsstring) : option (decimal * jsstring) :=
  let (neg, s1) :=
    match s with
    | c :: r => if (c =? code "-")%N then (true, r) else (false, s)
    | [] => (false, s)
    end in
  let (int, s2) := take_digits s1 in
  match int with
  | [] => None
  | d0 :: more =>
      if (d0 =? 0)%N && negb (match more with [] => true | _ => false end)
      then None
      else
        let frac :=
          match s2 with
          | c :: r =>
              if (c =? code ".")%N then
                let (fs, s3) := take_digits r in
                match fs with [] => None | _ => Some (fs, s3) end
              else Some ([], s2)
          | [] => Some ([], s2)
          end in
        match frac with
        | None => None
        | Some (fs, s3) =>
            let mantissa := digits_value (int ++ fs) in
            let shift := Z.of_nat (length fs) in
            let finish (e : Z) (rest : jsstring) :=
              Some ({| negative := neg; digits := mantissa;
                       exponent := e - shift |}, rest) in
            match s3 with
            | c :: r =>
                if ((c =? code "e") || (c =? code "E"))%N then
                  let (minus, r1) :=
                    match r with
                    | sg :: r' =>
                        if (sg =? code "-")%N then (true, r')
                        else if (sg =? code "+")%N then (false, r')
                        else (false, r)
                    | [] => (false, r)
                    end in
                  let (es, s4) := take_digits r1 in
                  match es with
                  | [] => None
                  | _ =>
                      let e := Z.of_N (digits_value es) in
                      finish (if minus then - e else e)%Z s4
                  end
                else finish 0%Z s3
            | [] => finish 0%Z s3
            end
        end
  end.

(** A value at the head of [s], white space before it skipped; [fuel]
    bounds the nesting and the number of items of a container. *)
Fixpoint parse_value (fuel : nat) (s : jsstring) : option (value * jsstring) :=
  match fuel with
  | O => None
  | S fuel' =>
      let elements :=
        fix elements (n : nat) (s : jsstring) (acc : list value)
          : option (list value * jsstring) :=
          match n with
          | O => None
          | S n' =>
              match parse_value fuel' s with
              | None => None
              | Some (v, s1) =>
                  match skip_ws s1 with
                  | c :: s2 =>
                      if (c =? code ",")%N then elements n' s2 (acc ++ [v])
                      else if (c =? code "]")%N then Some (acc ++ [v], s2)
                      else None
                  | [] => None
                  end
              end
          end in
      let members :=
        fix members (n : nat) (s : jsstring) (acc : list (jsstring * value))
          : option (list (jsstring * value) * jsstring) :=
          match n with
          | O => None
          | S n' =>
              match skip_ws s with
              | q :: s0 =>
                  if (q =? QUOTE)%N then
                    match string_body s0 with
                    | None => None
                    | Some (key, s1) =>
                        match skip_ws s1 with
                        | colon :: s2 =>
                            if (colon =? code ":")%N then
                              match parse_value fuel' s2 with
                              | None => None
                              | Some (v, s3) =>
                                  match skip_ws s3 with
                                  | c :: s4 =>
                                      if (c =? code ",")%N
                                      then members n' s4 (acc ++ [(key, v)])
                                      else if (c =? code "}")%N
                                      then Some (acc ++ [(key, v)], s4)
                                      else None
                                  | [] => None
                                  end
                              end
                            else None
                        | [] => None
                        end
                    end
                  else None
              | [] => None
              end
          end in
      match skip_ws s with
      | [] => None
      | c :: rest =>
          if (c =? code "{")%N then
            match skip_ws rest with
            | c' :: rest' =>
                if (c' =? code "}")%N then Some (JObj [], rest')
                else match members fuel' rest [] with
                     | Some (ms, after) => Some (JObj ms, after)
                     | None => None
                     end
            | [] => None
            end
          else if (c =? code "[")%N then
            match skip_ws rest with
            | c' :: rest' =>
                if (c' =? code "]")%N then Some (JArr [], rest')
                else match elements fuel' rest [] with
                     | Some (vs, after) => Some (JArr vs, after)
                     | None => None
                     end
            | [] => None
            end
          else if (c =? QUOTE)%N then
            match string_body rest with
            | Some (str, after) => Some (JStr str, after)
            | None => None
            end
          else if startsWith (c :: rest) (lit "true")
          then Some (JBool true, slice 4 (c :: rest))
          else if startsWith (c :: rest) (lit "false")
          then Some (JBool false, slice 5 (c :: rest))
          else if startsWith (c :: rest) (lit "null")
          then Some (JNull, slice 4 (c :: rest))
          else
            match parse_number (c :: rest) with
            | Some (d, after) => Some (JNum d, after)
            | None => None
            end
      end
  end.

Definition SyntaxError : jsstring := lit "Unexpected token in JSON".

Definition parse (text : jsstring) : result value :=
  match parse_value (Datatypes.S (length text)) text with
  | Some (v, rest) =>
      match skip_ws rest with
      | [] => Ok v
      | _ :: _ => Err SyntaxError
      end
  | None => Err SyntaxError
  end.

Definition platform : Platform :=
  {| number := decimal;
     Number_truthy := decimal_truthy;
     Number_toString := decimal_toString;
     JSON_parse := parse;
     msg_property_of_null := lit "Cannot read properties of null";
     msg_no_primitive := lit "Cannot convert object to primitive value";
     decoder_state := utf8;
     decoder_init := utf8_init;
     decoder_byte := utf8_byte |}.

End Reference.

(** ** main.js: starting the backend *)

Module Backend.
Import Supervisor.

(** What [findAvailablePort] comes to: the port of the server that
    listened, or the RangeError [listen] throws for a port above 65535
    (the promise rejects). *)
Inductive allocation : Type :=
| Bound (port : N)
| BadPort (port : N).

(** The directories [getUserDataPath] returns. *)
Record UserPaths : Type := {
  knowledge_base : jsstring;
  chroma_db : jsstring;
  config : jsstring
}.

(** What the main process finds around it:
    - [listens port]: [server.listen(port, '127.0.0.1')] succeeds, rather
      than emitting an error;
    - [ephemeral]: the port the system gives a server that asks for port 0;
    - [range_error port]: the message of the RangeError for [port];
    - [health port i]: the request number [i] to /health on [port] does not
      throw and has an ok response;
    - [userPaths]: what [getUserDataPath()] returns, or the message of
      what it throws when a directory cannot be made;
    - [pid]: the process [spawn] starts;
    - the rest as named in main.js and in Node. *)
Record Host : Type := {
  listens : N -> bool;
  ephemeral : N;
  range_error : N -> jsstring;
  health : N -> nat -> bool;
  userPaths : result UserPaths;
  pid : N;
  isDev : bool;
  win32 : bool;
  dirname : jsstring;
  resourcesPath : jsstring;
  process_env : list (jsstring * jsstring);
  path_join : list jsstring -> jsstring
}.

(** [findAvailablePort]: the recursion on [startPort + 1], which ends at
    the latest on port 65536, where [listen] throws; [fuel] counts the
    ports left up to there. *)
Fixpoint probe_from (h : Host) (fuel : nat) (port : N) : allocation :=
  match fuel with
  | O => BadPort port
  | S fuel' =>
      if listens h port
      then Bound (if (port =? 0)%N then ephemeral h else port)
      else probe_from h fuel' (port + 1)
  end.

Definition findAvailablePort (h : Host) (startPort : N) : allocation :=
  probe_from h (N.to_nat (65536 - startPort)) startPort.

(** [port.toString()] of a port number. *)
Definition port_text (port : N) : jsstring := Reference.decimal_of_N port.

(** A property of an object whose properties are listed in the order they
    were written: the last one of that name. *)
Fixpoint property (key : jsstring) (object : list (jsstring * jsstring))
  : option jsstring :=
  match object with
  | [] => None
  | (k, v) :: rest =>
      match property key rest with
      | Some v' => Some v'
      | None => if JSString.eqb k key then Some v else None
      end
  end.

(** [const env = { ...process.env, KNOWLEDGE_BASE_DIR: ..., ... }] *)
Definition backend_env (h : Host) (paths : UserPaths) (port : N)
  : list (jsstring * jsstring) :=
  process_env h ++
  [(lit "KNOWLEDGE_BASE_DIR", knowledge_base paths);
   (lit "CHROMA_DB_DIR", chroma_db paths);
   (lit "CONFIG_DIR", config paths);
   (lit "BACKEND_PORT", port_text port);
   (lit "PYTHONUNBUFFERED", lit "1");
   (lit "PYTHONNOUSERSITE", lit "1")].

(** What [spawn] is called with. *)
Record child : Type := {
  command : jsstring;
  args : list jsstring;
  cwd : jsstring;
  env : list (jsstring * jsstring)
}.

Definition backend_child (h : Host) (paths : UserPaths) (port : N) : child :=
  if isDev h then
    {| command := lit "python3";
       args := [path_join h [dirname h; lit ".."; lit "backend"; lit "start.py"]];
       cwd := path_join h [dirname h; lit ".."; lit "backend"];
       env := backend_env h paths port |}
  else
    {| command :=
         if win32 h
         then path_join h [resourcesPath h; lit "backend"; lit "venv";
                           lit "Scripts"; lit "python.exe"]
         else path_join h [resourcesPath h; lit "backend"; lit "venv";
                           lit "bin"; lit "python"];
       args := [path_join h [resourcesPath h; lit "backend"; lit "start.py"]];
       cwd := path_join h [resourcesPath h; lit "backend"];
       env := backend_env h paths port |}.

(** The main process and what it has done: the error boxes shown (title
    and content), the children spawned (pid and call), and the time spent
    waiting, in ms. *)
Record World : Type := {
  main : Main;
  dialogs : list (jsstring * jsstring);
  children : list (N * child);
  waited_ms : N
}.

Definition set_ready (m : Main) : Main :=
  {| mainWindow := mainWindow m; backendProcess := backendProcess m;
     backendPort := backendPort m; backendReady := true;
     timers := timers m; signals := signals m |}.

Definition set_port (port : N) (m : Main) : Main :=
  {| mainWindow := mainWindow m; backendProcess := backendProcess m;
     backendPort := port; backendReady := backendReady m;
     timers := timers m; signals := signals m |}.

Definition set_process (p : N) (m : Main) : Main :=
  {| mainWindow := mainWindow m; backendProcess := Some p;
     backendPort := backendPort m; backendReady := backendReady m;
     timers := timers m; signals := signals m |}.

(** How [waitForBackend] ends: it returns [true], or throws. *)
Inductive waited : Type :=
| Responding (m : Main) (ms : N)
| GaveUp (message : jsstring) (m : Main) (ms : N).

(** The [for] of [waitForBackend] from attempt [i] on, with [left]
    attempts to go; [ms] adds up the waits of one second. *)
Fixpoint poll (h : Host) (left : nat) (i : nat) (m : Main) (ms : N) : waited :=
  match left with
  | O => GaveUp (lit "Backend failed to start after 30 seconds") m ms
  | S left' =>
      if health h (backendPort m) i
      then Responding (set_ready m) ms
      else poll h left' (S i) m (ms + 1000)
  end.

Definition waitForBackend (h : Host) (maxAttempts : nat) (m : Main) (ms : N)
  : waited :=
  poll h maxAttempts 0 m ms.

(** [dialog.showErrorBox('Backend Error', `Failed to start backend: ...`)] *)
Definition show_start_error (message : jsstring) (w : World) : World :=
  {| main := main w;
     dialogs := dialogs w ++
                [(lit "Backend Error", lit "Failed to start backend: " ++ message)];
     children := children w;
     waited_ms := waited_ms w |}.

(** [startBackend], run to its end with no other handler in between;
    [Handlers.startBackend] below is the same function with what runs at
    its [await]s, the handlers it installs on the child among them. *)
Definition startBackend (h : Host) (w : World) : World :=
  match findAvailablePort h 8000 with
  | BadPort p => show_start_error (range_error h p) w
  | Bound port =>
      let m := set_port port (main w) in
      match userPaths h with
      | Err message =>
          show_start_error message
            {| main := m; dialogs := dialogs w; children := children w;
               waited_ms := waited_ms w |}
      | Ok paths =>
          let m := set_process (pid h) m in
          let spawned := children w ++ [(pid h, backend_child h paths port)] in
          match waitForBackend h 30 m (waited_ms w) with
          | Responding m' ms =>
              {| main := m'; dialogs := dialogs w; children := spawned;
                 waited_ms := ms |}
          | GaveUp message m' ms =>
              show_start_error message
                {| main := m'; dialogs := dialogs w; children := spawned;
                   waited_ms := ms |}
          end
      end
  end.

(** [ipcMain.handle('get-backend-url', ...)] *)
Definition get_backend_url (m : Main) : jsstring :=
  lit "http://127.0.0.1:" ++ port_text (backendPort m).

(** [ipcMain.handle('get-backend-status', ...)] *)
Definition get_backend_status (m : Main) : bool * N :=
  (backendReady m, backendPort m).

(** The child process exits [n] times, with the codes and signals given. *)
Fixpoint exits (events : list (option Z * option jsstring)) (m : Main) : Main :=
  match events with
  | [] => m
  | (code, signal) :: rest => exits rest (on_exit code signal m)
  end.

End Backend.

(** ** The backend supervisor: the handlers on the child

    [startBackend] attaches four handlers to the process it spawns and
    then waits, suspended at the [await]s of [waitForBackend]; whatever
    the event loop has to run meanwhile runs between two of its steps. *)

Module Handlers.
Import Supervisor Backend.

(** [s.includes(sub)] *)
Fixpoint includes (s sub : jsstring) : bool :=
  startsWith s sub
  || match s with
     | [] => false
     | _ :: s' => includes s' sub
     end.

(** [backendProcess.stdout.on('data', (data) => { ... })], on the text
    [data.toString()]. *)
Definition on_stdout (data : jsstring) (m : Main) : Main :=
  if includes data (lit "Uvicorn running") || includes data (lit "Started server")
  then set_ready m
  else m.

(** [backendProcess.on('error', (error) => { ... })], on [error.message]. *)
Definition on_error (message : jsstring) (w : World) : World :=
  show_start_error message w.

(** What the child process emits. *)
Inductive child_event : Type :=
| stdout_data (data : jsstring)
| stderr_data (data : jsstring)
| child_error (message : jsstring)
| child_exit (code : option Z) (signal : option jsstring).

Definition with_main (f : Main -> Main) (w : World) : World :=
  {| main := f (main w); dialogs := dialogs w; children := children w;
     waited_ms := waited_ms w |}.

(** The handler of each event; the one on stderr only logs. *)
Definition emit (e : child_event) (w : World) : World :=
  match e with
  | stdout_data data => with_main (on_stdout data) w
  | stderr_data _ => w
  | child_error message => on_error message w
  | child_exit code signal => with_main (on_exit code signal) w
  end.

Fixpoint emit_all (events : list child_event) (w : World) : World :=
  match events with
  | [] => w
  | e :: rest => emit_all rest (emit e w)
  end.

(** What else runs while [startBackend] is suspended: [others k w] is what
    the handlers that ran during its [await] number [k] have made of [w].
    Await 0 is the search for a port; in [waitForBackend] the request
    number [i] is await [2 * i + 1] and the second waited after it is
    await [2 * i + 2]. *)
Definition interleaving : Type := nat -> World -> World.

(** Nothing ran. *)
Definition quiet : interleaving := fun _ w => w.

(** [await new Promise(resolve => setTimeout(resolve, 1000))] has passed. *)
Definition sleep (ms : N) (w : World) : World :=
  {| main := main w; dialogs := dialogs w; children := children w;
     waited_ms := waited_ms w + ms |}.

(** How [waitForBackend] ends: it returns [true], or throws. *)
Inductive outcome : Type :=
| Returned (w : World)
| Threw (message : jsstring) (w : World).

(** The [for] of [waitForBackend] from attempt [i] on, with [left] attempts
    to go.  The address of the request is built from [backendPort] before
    the request is awaited; [backendReady = true] is written after it. *)
Fixpoint poll (h : Host) (others : interleaving) (left : nat) (i : nat)
         (w : World) : outcome :=
  match left with
  | O => Threw (lit "Backend failed to start after 30 seconds") w
  | S left' =>
      let port := backendPort (main w) in
      let w1 := others (2 * i + 1) w in
      if health h port i
      then Returned (with_main set_ready w1)
      else poll h others left' (S i) (sleep 1000 (others (2 * i + 2) w1))
  end.

Definition waitForBackend (h : Host) (others : interleaving)
           (maxAttempts : nat) (w : World) : outcome :=
  poll h others maxAttempts 0 w.

(** [startBackend]: [backendPort] is assigned when the search for a port
    is over; from there to the first request of [waitForBackend] nothing
    else can run. *)
Definition startBackend (h : Host) (others : interleaving) (w : World) : World :=
  let w0 := others 0 w in
  match findAvailablePort h 8000 with
  | BadPort p => show_start_error (range_error h p) w0
  | Bound port =>
      let w1 := with_main (set_port port) w0 in
      match userPaths h with
      | Err message => show_start_error message w1
      | Ok paths =>
          let w2 :=
            {| main := set_process (pid h) (main w1);
               dialogs := dialogs w1;
               children := children w1 ++ [(pid h, backend_child h paths port)];
               waited_ms := waited_ms w1 |} in
          match waitForBackend h others 30 w2 with
          | Returned w' => w'
          | Threw message w' => show_start_error message w'
          end
      end
  end.


End Handlers.

(** ** Concrete streams and states, on the reference platform *)

Module Examples.
Import Reference.
#[local] Existing Instance platform.

(** An ASCII text in which an apostrophe stands for the double quote of
    JSON. *)
Definition quoted (s : string) : list ascii :=
  map (fun a => if Ascii.eqb a "'" then ascii_of_N QUOTE else a)
      (list_ascii_of_string s).

(** A line of the stream: its bytes and the newline that ends it. *)
Definition line (s : string) : list byte :=
  map byte_of_ascii (quoted s) ++ [x0a].

(** A text as the decoder hands it over. *)
Definition text (s : string) : jsstring := map N_of_ascii (quoted s).

(** The greeting the page starts with. *)
Definition greeting : @Message platform :=
  {| role := assistant;
     content := lit "Hello there! How can I help you today?";
     sources := None; isThinking := None |}.

Definition idle : @State platform :=
  {| messages := [greeting]; error := None; isProcessing := false;
     ui_isThinking := false; sent := [] |}.

Definition baseUrl : jsstring := lit "http://127.0.0.1:8000".

(** The main process with the backend ready and no window left, as on
    macOS once the last window is closed. *)
Definition ready_no_window : Supervisor.Main :=
  {| Supervisor.mainWindow := None;
     Supervisor.backendProcess := Some 4242%N;
     Supervisor.backendPort := 8000%N;
     Supervisor.backendReady := true;
     Supervisor.timers := [];
     Supervisor.signals := [] |}.

(** The main process with the backend ready and its window shown. *)
Definition ready_with_window : Supervisor.Main :=
  {| Supervisor.mainWindow := Some {| Supervisor.isDestroyed := false |};
     Supervisor.backendProcess := Some 4242%N;
     Supervisor.backendPort := 8000%N;
     Supervisor.backendReady := true;
     Supervisor.timers := [];
     Supervisor.signals := [] |}.

(** The turn when the stream of the answer to [hello] opens. *)
Definition opened : @Turn platform :=
  {| state := begin_turn (lit "hello") baseUrl idle; messageContent := [] |}.

Definition sources_line : list byte :=
  line "data: {'type':'sources','sources':[{'source':'a.pdf','path':'/x/a.pdf'}]}".
Definition hi_line : list byte := line "data: {'type':'token','content':'Hi'}".
Definition there_line : list byte := line "data: {'type':'token','content':' there'}".
Definition done_line : list byte := line "data: {'type':'done'}".
Definition boom_line : list byte := line "data: {'type':'error','error':'boom'}".
Definition late_line : list byte := line "data: {'type':'token','content':'late'}".

Definition unfinished_line : list byte := line "data: {'type':'token'".
Definition blank_line : list byte := line "data: ".

Definition hello_user : @Message platform := user_message (lit "hello").

(** The answer in progress, with a content and a thinking flag. *)
Definition answer (c : jsstring) (s : option (json (@number platform))) (th : bool)
  : @Message platform :=
  {| role := assistant; content := c; sources := s; isThinking := Some th |}.

(** The turn [opened] with another last message and accumulated text. *)
Definition opened_with (m : @Message platform) (c : jsstring) : @Turn platform :=
  {| state := setMessages (fun _ => [greeting; hello_user; m]) (state opened);
     messageContent := c |}.

(** A record of type token without content. *)
Definition token_no_content : json decimal :=
  JObj [(lit "type", JStr (lit "token"))].

(** The stream of the end-to-end scenario. *)
Definition scenario : list byte :=
  sources_line ++ hi_line ++ there_line ++ done_line.

(** The answer of the scenario. *)
Definition hi_there : @Message platform :=
  {| role := assistant; content := lit "Hi there";
     sources := Some a_pdf; isThinking := Some false |}.

End Examples.

(** ** ChatInterface.tsx: what the read loop keeps from chunk to chunk *)

Module ReadLoop.
Section WithPlatform.
Context {P : Platform}.

(** The locals [decoder] and [buffer] once the loop has taken the chunks;
    they do not depend on what the body of the loop does. *)
Fixpoint reader_after (chunks : list (list byte)) (r : Reader) : Reader :=
  match chunks with
  | [] => r
  | value :: rest =>
      reader_after rest
        (fst (on_chunk (fun _ (s : unit) => Normal s) value r tt))
  end.

(** A body of the loop that only keeps the lines it is given. *)
Definition keep_line (line : jsstring) (acc : list jsstring)
  : completion (list jsstring) :=
  Normal (acc ++ [line]).

(** The lines the [for] of the loop goes through, over all the chunks. *)
Definition lines_given (chunks : list (list byte)) : list jsstring :=
  match read_loop keep_line chunks new_reader [] with
  | Normal l => l
  | Throw _ l => l
  | RenderCrash => []
  end.

End WithPlatform.
End ReadLoop.
Import ReadLoop.

(** ** api.ts, and the configuration dialog of ChatInterface.tsx *)

Module Api.
Section WithPlatform.
Context {P : Platform}.
Local Abbreviation value := (json number).

(** Where [getBaseUrl] runs: on the server, with the variable
    NEXT_PUBLIC_API_URL if it is set; or in a window, with the host name of
    its location and, under Electron, the outcome of
    [window.electronAPI.getBackendUrl()]. *)
Inductive Runtime : Type :=
| OnServer (NEXT_PUBLIC_API_URL : option jsstring)
| InWindow (hostname : jsstring) (electronAPI : option (result jsstring)).

Definition getBaseUrl (rt : Runtime) : jsstring :=
  match rt with
  | InWindow _ (Some (Ok url)) => url
  | InWindow _ (Some (Err _)) => lit "http://localhost:8000"
  | InWindow hostname None => lit "http://" ++ hostname ++ lit ":8000"
  | OnServer (Some (c :: url)) => c :: url
  | OnServer _ => lit "http://localhost:8000"
  end.

(** The window of the Electron application, whose [getBackendUrl] asks the
    main process. *)
Definition electron (hostname : jsstring) (m : Supervisor.Main) : Runtime :=
  InWindow hostname (Some (Ok (Backend.get_backend_url m))).

(** [class ApiService]: its private [baseUrl], [null] at first. *)
Record ApiService : Type := { baseUrl : option jsstring }.

Definition new_ApiService : ApiService := {| baseUrl := None |}.

(** [if (!this.baseUrl) { this.baseUrl = await getBaseUrl() }
     return this.baseUrl] *)
Definition getBaseUrlCached (rt : Runtime) (api : ApiService)
  : jsstring * ApiService :=
  match baseUrl api with
  | Some (c :: url) => (c :: url, api)
  | _ => (getBaseUrl rt, {| baseUrl := Some (getBaseUrl rt) |})
  end.

Definition resetBaseUrl (api : ApiService) : ApiService := {| baseUrl := None |}.

(** What a [fetch] of the api meets: it rejects, or it has a response,
    ok or not, whose body [response.json()] parses or not. *)
Inductive reply : Type :=
| Rejects (message : jsstring)
| Status (ok : bool) (body : result value).

(** The message thrown on a response that is not ok:
    [const error = await response.json();
     throw new Error(error.detail || fallback)]. *)
Definition failure_message (fallback : jsstring) (body : result value) : jsstring :=
  match body with
  | Err m => m
  | Ok JNull => msg_property_of_null
  | Ok error =>
      match get error (lit "detail") with
      | Some detail =>
          if truthy (Some detail)
          then match ToString detail with Ok m => m | Err m => m end
          else fallback
      | None => fallback
      end
  end.

(** How a method that returns nothing ends. *)
Definition settle (fallback : jsstring) (r : reply) : result unit :=
  match r with
  | Rejects m => Err m
  | Status true _ => Ok tt
  | Status false body => Err (failure_message fallback body)
  end.

(** A toast: title, description, and whether it is the destructive
    variant. *)
Record Toast : Type := {
  title : jsstring;
  description : jsstring;
  destructive : bool
}.

(** The configuration dialog, the api object and the requests made
    (address and method). *)
Record ConfigUI : Type := {
  isSaving : bool;
  isConfigOpen : bool;
  toasts : list Toast;
  api : ApiService;
  requested : list (jsstring * jsstring)
}.

Definition error_toast (m : jsstring) : Toast :=
  {| title := lit "Error"; description := m; destructive := true |}.

Definition success_toast (m : jsstring) : Toast :=
  {| title := lit "Success"; description := m; destructive := false |}.

(** A call of a method of the api that posts to [path]: the address is
    the cached one, the request is recorded, the api keeps the address. *)
Definition post (rt : Runtime) (path : jsstring) (ui : ConfigUI) : ConfigUI :=
  let (base, api') := getBaseUrlCached rt (api ui) in
  {| isSaving := isSaving ui; isConfigOpen := isConfigOpen ui;
     toasts := toasts ui; api := api';
     requested := requested ui ++ [(base ++ path, lit "POST")] |}.

Definition toast (t : Toast) (ui : ConfigUI) : ConfigUI :=
  {| isSaving := isSaving ui; isConfigOpen := isConfigOpen ui;
     toasts := toasts ui ++ [t]; api := api ui; requested := requested ui |}.

Definition setIsSaving (b : bool) (ui : ConfigUI) : ConfigUI :=
  {| isSaving := b; isConfigOpen := isConfigOpen ui;
     toasts := toasts ui; api := api ui; requested := requested ui |}.

Definition setIsConfigOpen (b : bool) (ui : ConfigUI) : ConfigUI :=
  {| isSaving := isSaving ui; isConfigOpen := b;
     toasts := toasts ui; api := api ui; requested := requested ui |}.

(** [handleSaveConfig(shouldRefresh)], for what [api.updateConfig] and
    [api.refreshDatabase] meet. *)
Definition handleSaveConfig (rt : Runtime) (shouldRefresh : bool)
           (update refresh : reply) (ui : ConfigUI) : ConfigUI :=
  let ui := setIsSaving true ui in
  let ui := post rt (lit "/settings") ui in
  let ui :=
    match settle (lit "Failed to update configuration") update with
    | Err m => toast (error_toast m) ui
    | Ok _ =>
        let ui := toast (success_toast (lit "Configuration saved successfully")) ui in
        if shouldRefresh then
          let ui := post rt (lit "/refresh") ui in
          match settle (lit "Failed to refresh database") refresh with
          | Err m => toast (error_toast m) ui
          | Ok _ =>
              let ui := toast (success_toast
                                 (lit "Database refreshed with new settings")) ui in
              setIsConfigOpen false ui
          end
        else setIsConfigOpen false ui
    end in
  setIsSaving false ui.

(** Whether a call of the api came to a good end. *)
Definition succeeded (fallback : jsstring) (r : reply) : bool :=
  match settle fallback r with
  | Ok _ => true
  | Err _ => false
  end.

End WithPlatform.
End Api.

(** ** Concrete hosts for the main process *)

Module BackendExamples.
Import Supervisor Backend.

Definition data_paths : UserPaths :=
  {| knowledge_base := lit "/data/knowledge_base";
     chroma_db := lit "/data/chroma_db";
     config := lit "/data" |}.

(** A packaged application on a machine where port 8000 is taken; the
    backend answers from the third request on, on port 8001. *)
Definition busy_8000 : Host :=
  {| listens := fun p => negb (p =? 8000)%N;
     ephemeral := 49152;
     range_error := fun _ => lit "options.port should be >= 0 and < 65536";
     health := fun port i => (port =? 8001)%N && Nat.leb 2 i;
     userPaths := Ok data_paths;
     pid := 4242;
     isDev := false;
     win32 := false;
     dirname := lit "/app";
     resourcesPath := lit "/res";
     process_env := [(lit "PATH", lit "/usr/bin"); (lit "BACKEND_PORT", lit "9")];
     path_join := join_with (lit "/") |}.

(** The same machine with a backend that never answers. *)
Definition silent : Host :=
  {| listens := listens busy_8000;
     ephemeral := ephemeral busy_8000;
     range_error := range_error busy_8000;
     health := fun _ _ => false;
     userPaths := userPaths busy_8000;
     pid := pid busy_8000;
     isDev := isDev busy_8000;
     win32 := win32 busy_8000;
     dirname := dirname busy_8000;
     resourcesPath := resourcesPath busy_8000;
     process_env := process_env busy_8000;
     path_join := path_join busy_8000 |}.

(** The same machine with every port refused. *)
Definition no_port : Host :=
  {| listens := fun _ => false;
     ephemeral := ephemeral busy_8000;
     range_error := range_error busy_8000;
     health := health busy_8000;
     userPaths := userPaths busy_8000;
     pid := pid busy_8000;
     isDev := isDev busy_8000;
     win32 := win32 busy_8000;
     dirname := dirname busy_8000;
     resourcesPath := resourcesPath busy_8000;
     process_env := process_env busy_8000;
     path_join := path_join busy_8000 |}.

(** The main process before the first start. *)
Definition not_started : Main :=
  {| mainWindow := None; backendProcess := None; backendPort := 8000;
     backendReady := false; timers := []; signals := [] |}.

Definition at_launch : World :=
  {| main := not_started; dialogs := []; children := []; waited_ms := 0 |}.

End BackendExamples.

(** ** More streams and states *)

Module MoreExamples.
Import Reference Examples Supervisor Backend BackendExamples.
#[local] Existing Instance platform.

(** A comment line of an event stream. *)
Definition ping_line : list byte := line ": ping".

(** A record that no newline follows. *)
Definition unended : list byte :=
  map byte_of_ascii (quoted "data: {'type':'token','content':'late'}").

(** The main process while it waits for the backend on port 8001. *)
Definition probing : Main := set_port 8001 not_started.

(** The window of the application, with the backend on a given port. *)
Definition window_on (port : N) : Api.Runtime :=
  Api.electron (lit "localhost") (set_port port not_started).

(** A child that logs that its server has started, during the third
    request, and is never reached. *)
Definition unreachable : Handlers.interleaving :=
  fun k =>
    Handlers.emit_all
      (if Nat.eqb k 5
       then [Handlers.stdout_data (lit "INFO:     Started server process [4242]")]
       else []).

(** A child that could not be spawned: the error comes during the first
    request. *)
Definition not_spawned : Handlers.interleaving :=
  fun k =>
    Handlers.emit_all
      (if Nat.eqb k 1
       then [Handlers.child_error (lit "spawn /res/backend/venv/bin/python ENOENT")]
       else []).

End MoreExamples.

(** * Properties *)

(** ** Splitting into lines *)

Section SplitFacts.

Lemma split_not_nil (s : jsstring) : split s <> [].
Proof.
  destruct s as [|c s]; simpl; [discriminate|].
  destruct (N.eqb c LF); [discriminate|].
  destruct (split s); discriminate.
Qed.

Lemma removelast_cons_ne (A : Type) (x : A) (l : list A) :
  l <> [] -> removelast (x :: l) = x :: removelast l.
Proof. destruct l; [contradiction|reflexivity]. Qed.

Lemma last_cons_ne (A : Type) (x d : A) (l : list A) :
  l <> [] -> last (x :: l) d = last l d.
Proof. destruct l; [contradiction|reflexivity]. Qed.

(** Splitting a concatenation: the complete lines of the first part,
    then the lines of its unfinished line followed by the second part. *)
Lemma split_app (a b : jsstring) :
  split (a ++ b) = removelast (split a) ++ split (last (split a) [] ++ b).
Proof.
  induction a as [|c a IH]; [reflexivity|].
  pose proof (split_not_nil a) as Hne.
  change ((c :: a) ++ b) with (c :: (a ++ b)).
  simpl split. destruct (N.eqb c LF) eqn:Hc.
  - rewrite removelast_cons_ne, last_cons_ne by assumption.
    rewrite IH. reflexivity.
  - rewrite IH. destruct (split a) as [|h [|h2 t]]; [contradiction| |].
    + simpl. rewrite Hc. reflexivity.
    + reflexivity.
Qed.

(** What [lines.pop()] leaves in the buffer holds no newline. *)
Lemma split_last (s : jsstring) :
  split (last (split s) []) = [last (split s) []].
Proof.
  induction s as [|c s IH]; [reflexivity|].
  pose proof (split_not_nil s) as Hne.
  change (split (c :: s))
    with (if N.eqb c LF then [] :: split s
          else match split s with
               | [] => [[c]]
               | h :: t => (c :: h) :: t
               end).
  destruct (N.eqb c LF) eqn:Hc.
  - rewrite last_cons_ne by assumption. exact IH.
  - destruct (split s) as [|h [|h2 t]]; [contradiction| |].
    + simpl in IH |- *. rewrite Hc, IH. reflexivity.
    + exact IH.
Qed.

Lemma removelast_app_ne (A : Type) (l1 l2 : list A) :
  l2 <> [] -> removelast (l1 ++ l2) = l1 ++ removelast l2.
Proof. intros H. apply removelast_app. exact H. Qed.

End SplitFacts.

(** ** The read loop *)

Section LoopFacts.
Context {P : Platform}.

Lemma andThen_ext (S : Type) (c : completion S) (k1 k2 : S -> completion S) :
  (forall s, k1 s = k2 s) -> andThen c k1 = andThen c k2.
Proof. intros H. destruct c; simpl; auto. Qed.

Lemma andThen_assoc (S : Type) (c : completion S) (k1 k2 : S -> completion S) :
  andThen (andThen c k1) k2 = andThen c (fun s => andThen (k1 s) k2).
Proof. destruct c; reflexivity. Qed.

Lemma decode_app (d : decoder_state) (a b : list byte) :
  decode d (a ++ b) =
  (fst (decode (fst (decode d a)) b),
   snd (decode d a) ++ snd (decode (fst (decode d a)) b)).
Proof.
  revert d. induction a as [|x a IH]; intros d; simpl.
  - destruct (decode d b); reflexivity.
  - destruct (decoder_byte d x) as [d1 s1]. rewrite IH.
    destruct (decode d1 a) as [d2 s2]. simpl.
    rewrite app_assoc. reflexivity.
Qed.

Variable S : Type.
Variable body : jsstring -> S -> completion S.

Lemma for_lines_app (l1 l2 : list jsstring) (s : S) :
  for_lines body (l1 ++ l2) s = andThen (for_lines body l1 s) (for_lines body l2).
Proof.
  revert s. induction l1 as [|l l1 IH]; intros s; [reflexivity|].
  simpl. rewrite andThen_assoc. apply andThen_ext. exact IH.
Qed.

(** The loop runs the body on the complete lines of the whole decoded
    text, whatever the chunks. *)
Lemma read_loop_lines (chunks : list (list byte)) (r : Reader) (s : S) :
  split (buffer r) = [buffer r] ->
  read_loop body chunks r s =
  for_lines body
    (complete_lines (buffer r ++ snd (decode (decoder r) (concat chunks)))) s.
Proof.
  revert r s. induction chunks as [|v rest IH]; intros r s Hb.
  - simpl. rewrite app_nil_r. unfold complete_lines. rewrite Hb. reflexivity.
  - simpl concat. rewrite decode_app. simpl snd.
    simpl read_loop. unfold on_chunk.
    destruct (decode (decoder r) v) as [d text] eqn:Hd. simpl fst. simpl snd.
    unfold complete_lines. rewrite app_assoc.
    rewrite (split_app (buffer r ++ text)).
    rewrite removelast_app_ne by apply split_not_nil.
    rewrite for_lines_app. apply andThen_ext. intros s'.
    rewrite IH by (simpl; apply split_last). reflexivity.
Qed.

Lemma read_loop_one_chunk (chunks : list (list byte)) (s : S) :
  read_loop body chunks new_reader s = read_loop body [concat chunks] new_reader s.
Proof.
  rewrite !read_loop_lines by reflexivity.
  simpl concat. rewrite app_nil_r. reflexivity.
Qed.

End LoopFacts.

(** ** From lines to records *)

Section EventFacts.
Context {P : Platform}.
Local Abbreviation value := (json number).

Lemma for_lines_collect (lines : list jsstring) (acc : list (result value)) :
  decoded (for_lines collect lines acc) =
  acc ++ decoded (for_lines collect lines []).
Proof.
  revert acc. induction lines as [|l rest IH]; intros acc; simpl.
  - rewrite app_nil_r. reflexivity.
  - unfold collect at 1 3. destruct (decode_line l) as [[data|m]|]; simpl.
    + rewrite IH, (IH [Ok data]), app_assoc. reflexivity.
    + reflexivity.
    + apply IH.
Qed.

(** The loop body applies, in order, the records [collect] gathers. *)
Lemma for_lines_events (lines : list jsstring) (t : Turn) :
  for_lines process_line lines t =
  apply_events (decoded (for_lines collect lines [])) t.
Proof.
  revert t. induction lines as [|l rest IH]; intros t; [reflexivity|].
  simpl. unfold process_line at 1, collect at 1.
  destruct (decode_line l) as [[data|m]|]; simpl.
  - rewrite for_lines_collect. simpl. apply andThen_ext. exact IH.
  - reflexivity.
  - apply IH.
Qed.

Lemma stream_events_lines (chunks : list (list byte)) :
  stream_events chunks =
  decoded (for_lines collect
             (complete_lines (snd (decode decoder_init (concat chunks)))) []).
Proof.
  unfold stream_events. rewrite read_loop_lines by reflexivity. reflexivity.
Qed.

Lemma read_loop_events (chunks : list (list byte)) (t : Turn) :
  read_loop process_line chunks new_reader t =
  apply_events (stream_events chunks) t.
Proof.
  rewrite stream_events_lines, read_loop_lines by reflexivity.
  apply for_lines_events.
Qed.

Lemma apply_events_app (l1 l2 : list (result value)) (t : Turn) :
  apply_events (l1 ++ l2) t = andThen (apply_events l1 t) (apply_events l2).
Proof.
  revert t. induction l1 as [|e l1 IH]; intros t; [reflexivity|].
  simpl. rewrite andThen_assoc. apply andThen_ext. exact IH.
Qed.

(** [handleSubmit] on a response with a body, through the records of the
    stream. *)
Lemma handleSubmit_events (text baseUrl : jsstring) (chunks : list (list byte))
      (e : ending) (st : State) :
  trim text <> [] -> isProcessing st = false ->
  handleSubmit text baseUrl (Body chunks e) st =
  finish e (apply_events (stream_events chunks)
              {| state := begin_turn (trim text) baseUrl st;
                 messageContent := [] |}).
Proof.
  intros Ht Hp. unfold handleSubmit. rewrite Hp.
  destruct (trim text); [contradiction|]. simpl orb. cbv iota.
  rewrite read_loop_events. reflexivity.
Qed.

End EventFacts.

(** ** Chunk boundaries *)

Section ChunkBoundaries.
Context {P : Platform}.

(** C1.  Chunk-boundary invariance: however the byte stream is cut into
    chunks, the carry-over buffer loop decodes the same records in the
    same order as when the whole stream comes as one chunk; the loop
    leaves the turn in the same state, and [handleSubmit] ends in the
    same state.  It holds for every byte stream, well-formed or not. *)
Theorem chunk_boundary_invariance (chunks : list (list byte)) :
  stream_events chunks = stream_events [concat chunks]
  /\ (forall t : Turn,
         read_loop process_line chunks new_reader t =
         read_loop process_line [concat chunks] new_reader t)
  /\ (forall (text baseUrl : jsstring) (e : ending) (st : State),
         handleSubmit text baseUrl (Body chunks e) st =
         handleSubmit text baseUrl (Body [concat chunks] e) st).
Proof.
  split; [|split].
  - unfold stream_events. rewrite read_loop_one_chunk. reflexivity.
  - intros t. apply read_loop_one_chunk.
  - intros text baseUrl e st. unfold handleSubmit.
    rewrite read_loop_one_chunk. reflexivity.
Qed.

End ChunkBoundaries.

(** ** The reducer *)

Section ReducerFacts.
Context {P : Platform}.
Local Abbreviation value := (json number).

Lemma eqb_eq (a b : jsstring) : JSString.eqb a b = true <-> a = b.
Proof.
  revert b. induction a as [|x a IH]; intros [|y b]; simpl;
    try (split; [discriminate|discriminate]); [tauto|].
  rewrite andb_true_iff, N.eqb_eq, IH. split.
  - intros [-> ->]. reflexivity.
  - intros H. injection H. auto.
Qed.

Lemma has_type_unique (data : value) (a b : jsstring) :
  has_type data a = true -> a <> b -> has_type data b = false.
Proof.
  unfold has_type, is_string. intros Ha Hab.
  destruct (get data (lit "type")) as [[| | |s| |]|]; try discriminate.
  apply eqb_eq in Ha. subst s.
  destruct (JSString.eqb a b) eqn:Hb; [|reflexivity].
  apply eqb_eq in Hb. contradiction.
Qed.

Lemma has_type_not_null (data : value) (a : jsstring) :
  has_type data a = true -> data <> JNull.
Proof. intros H ->. discriminate. Qed.

Lemma update_last_snoc (f : Message -> Message) (prev : list Message) (m : Message) :
  update_last f (prev ++ [m]) =
  Some (prev ++ [match role m with assistant => f m | user => m end]).
Proof.
  induction prev as [|a prev IH]; [reflexivity|].
  change ((a :: prev) ++ [m]) with (a :: (prev ++ [m])).
  destruct (prev ++ [m]) as [|b l] eqn:E.
  - destruct prev; discriminate.
  - change (update_last f (a :: b :: l))
      with (match update_last f (b :: l) with
            | Some rest' => Some (a :: rest')
            | None => None
            end).
    rewrite IH. reflexivity.
Qed.

Lemma setMessages_last_snoc (f : Message -> Message) (t : Turn)
      (prev : list Message) (m : Message) :
  messages (state t) = prev ++ [m] ->
  setMessages_last f t =
  Normal {| state := setMessages
                       (fun _ => prev ++ [match role m with
                                          | assistant => f m
                                          | user => m
                                          end]) (state t);
            messageContent := messageContent t |}.
Proof.
  intros H. unfold setMessages_last. rewrite H, update_last_snoc. reflexivity.
Qed.

(** *** What each record of the protocol does *)

Lemma dispatch_ev_sources (list : value) (t : Turn) :
  dispatch (ev_sources list) t = setMessages_last (with_sources (Some list)) t.
Proof. reflexivity. Qed.

Lemma dispatch_ev_token (text : jsstring) (t : Turn) :
  dispatch (ev_token text) t =
  setMessages_last (with_content (messageContent t ++ text))
    {| state := state t; messageContent := messageContent t ++ text |}.
Proof. reflexivity. Qed.

Lemma dispatch_ev_done (t : Turn) :
  dispatch ev_done t =
  Normal {| state := setIsProcessing false (state t);
            messageContent := messageContent t |}.
Proof. reflexivity. Qed.

Lemma dispatch_ev_error (text : jsstring) (t : Turn) :
  dispatch (ev_error text) t =
  Throw (match text with [] => lit "Unknown error occurred" | _ => text end) t.
Proof. destruct text; reflexivity. Qed.

(** *** Records by their type *)

Lemma dispatch_sources (data : value) (t : Turn) :
  has_type data (lit "sources") = true ->
  dispatch data t =
  setMessages_last (with_sources (get data (lit "sources"))) t.
Proof.
  intros H. assert (Hn : data <> JNull) by (intros ->; discriminate).
  unfold has_type in H. unfold dispatch. rewrite H.
  destruct data; [contradiction| | | | |]; reflexivity.
Qed.

Lemma dispatch_token (data : value) (t : Turn) :
  has_type data (lit "token") = true ->
  dispatch data t =
  match get data (lit "content") with
  | None => Normal t
  | Some c =>
      match ToString c with
      | Err m => Throw m t
      | Ok s =>
          setMessages_last (with_content (messageContent t ++ s))
            {| state := state t; messageContent := messageContent t ++ s |}
      end
  end.
Proof.
  intros H. assert (Hn : data <> JNull) by (intros ->; discriminate).
  assert (Hs : has_type data (lit "sources") = false)
    by (eapply has_type_unique; [exact H | discriminate]).
  unfold has_type in H, Hs. unfold dispatch. rewrite H, Hs.
  destruct data; [contradiction| | | | |]; reflexivity.
Qed.

Lemma dispatch_error (data : value) (t : Turn) :
  has_type data (lit "error") = true ->
  dispatch data t = Throw (thrown_message data) t.
Proof.
  intros H. assert (Hn : data <> JNull) by (intros ->; discriminate).
  assert (Hs : has_type data (lit "sources") = false)
    by (eapply has_type_unique; [exact H | discriminate]).
  assert (Hk : has_type data (lit "token") = false)
    by (eapply has_type_unique; [exact H | discriminate]).
  unfold has_type in H, Hs, Hk. unfold dispatch, thrown_message.
  rewrite H, Hs, Hk.
  destruct data; [contradiction| | | | |]; destruct (error_message _); reflexivity.
Qed.

(** A record of no type the chain acts on changes at most [isProcessing]. *)
Lemma dispatch_other (data : value) (t : Turn) :
  data <> JNull ->
  has_type data (lit "sources") = false ->
  has_type data (lit "token") = false ->
  has_type data (lit "error") = false ->
  dispatch data t =
  if has_type data (lit "done") || truthy (get data (lit "done"))
  then Normal {| state := setIsProcessing false (state t);
                 messageContent := messageContent t |}
  else Normal t.
Proof.
  intros Hn Hs Hk He. unfold has_type in *. unfold dispatch.
  rewrite Hs, Hk, He.
  destruct data; [contradiction| | | | |]; reflexivity.
Qed.

End ReducerFacts.

(** ** The scenarios of the protocol *)

Section Scenarios.
Context {P : Platform}.
Local Abbreviation value := (json number).

Lemma setMessages_twice (l1 l2 : list Message) (st : State) :
  setMessages (fun _ => l2) (setMessages (fun _ => l1) st) =
  setMessages (fun _ => l2) st.
Proof. reflexivity. Qed.

(** C2.  From a list that ends with the assistant placeholder (empty
    content, thinking), the records sources([a.pdf]), token("Hi"),
    token(" there"), done leave as last message the assistant message
    with content "Hi there", the sources delivered and isThinking false;
    the messages before it are as they were. *)
Theorem scenario_sources_tokens_done (st : State) (prev : list Message) :
  messages st = prev ++ [placeholder] ->
  apply_events
    [Ok (ev_sources a_pdf); Ok (ev_token (lit "Hi"));
     Ok (ev_token (lit " there")); Ok ev_done]
    {| state := st; messageContent := [] |}
  = Normal
      {| state :=
           setIsProcessing false
             (setMessages
                (fun _ => prev ++ [{| role := assistant;
                                      content := lit "Hi there";
                                      sources := Some a_pdf;
                                      isThinking := Some false |}]) st);
         messageContent := lit "Hi there" |}.
Proof.
  intros H. unfold apply_events, apply_record.
  rewrite dispatch_ev_sources.
  rewrite (setMessages_last_snoc _ _ prev placeholder) by exact H.
  unfold andThen at 1. rewrite dispatch_ev_token.
  erewrite setMessages_last_snoc by reflexivity.
  unfold andThen at 1. rewrite dispatch_ev_token.
  erewrite setMessages_last_snoc by reflexivity.
  unfold andThen at 1. rewrite dispatch_ev_done.
  reflexivity.
Qed.

(** C10.  A record of type token without a content field leaves the turn
    as it is: nothing is appended, no message is touched, isThinking
    keeps its value, and nothing is thrown. *)
Theorem token_without_content (data : value) (t : Turn) :
  has_type data (lit "token") = true ->
  get data (lit "content") = None ->
  dispatch data t = Normal t.
Proof.
  intros Ht Hc. rewrite dispatch_token by exact Ht. rewrite Hc. reflexivity.
Qed.

End Scenarios.

(** ** What the records leave of the message list *)

Section Shape.
Context {P : Platform}.
Local Abbreviation value := (json number).

Lemma final_andThen (S : Type) (c : completion S) (k : S -> completion S) :
  final (andThen c k) =
  match c with
  | Normal s => final (k s)
  | Throw _ s => Some s
  | RenderCrash => None
  end.
Proof. destruct c; reflexivity. Qed.

(** A record touches the last message only, and only in one of two
    ways; it sends nothing. *)
Lemma apply_record_shape (r : result value) (t : Turn)
      (prev : list Message) (m : Message) :
  messages (state t) = prev ++ [m] ->
  exists t' m',
    final (apply_record r t) = Some t'
    /\ messages (state t') = prev ++ [m']
    /\ sent (state t') = sent (state t)
    /\ (m' = m
        \/ (is_sources r = true /\ exists s, m' = with_sources s m)
        \/ (is_token r = true /\ exists c, m' = with_content c m)).
Proof.
  intros H. destruct r as [data|msg]; simpl apply_record.
  2: { exists t, m. simpl. auto. }
  destruct (has_type data (lit "sources")) eqn:Hs.
  { rewrite dispatch_sources by exact Hs.
    rewrite (setMessages_last_snoc _ _ _ _ H). simpl final.
    eexists; eexists; split; [reflexivity|]. simpl.
    split; [reflexivity|]. split; [reflexivity|].
    destruct (role m); [right; left; eauto|left; reflexivity]. }
  destruct (has_type data (lit "token")) eqn:Hk.
  { rewrite dispatch_token by exact Hk.
    destruct (get data (lit "content")) as [c|] eqn:Hc.
    2: { exists t, m. simpl. auto. }
    destruct (ToString c) as [txt|msg].
    2: { exists t, m. simpl. auto. }
    erewrite setMessages_last_snoc by exact H. simpl final.
    eexists; eexists; split; [reflexivity|]. simpl.
    split; [reflexivity|]. split; [reflexivity|].
    destruct (role m); [right; right|left; reflexivity].
    rewrite Hk, Hc. eauto. }
  destruct (has_type data (lit "error")) eqn:He.
  { rewrite dispatch_error by exact He. exists t, m. simpl. auto. }
  assert (Hcases : data = JNull \/ data <> JNull)
    by (destruct data; [left; reflexivity|right; discriminate..]).
  destruct Hcases as [->|Hn].
  { exists t, m. simpl. auto. }
  rewrite dispatch_other by assumption.
  destruct (has_type data (lit "done") || truthy (get data (lit "done")));
    eexists; exists m; simpl; auto.
Qed.

Lemma apply_events_shape (events : list (result value)) (t : Turn)
      (prev : list Message) (m : Message) :
  messages (state t) = prev ++ [m] ->
  exists t' m',
    final (apply_events events t) = Some t'
    /\ messages (state t') = prev ++ [m']
    /\ sent (state t') = sent (state t).
Proof.
  revert t m. induction events as [|r rest IH]; intros t m H.
  - exists t, m. simpl. auto.
  - simpl. rewrite final_andThen.
    destruct (apply_record_shape r t prev m H) as (t1 & m1 & Hf & Hm & Hsent & _).
    destruct (apply_record r t) as [s|msg s|]; simpl in Hf; try discriminate;
      injection Hf as ->.
    + destruct (IH t1 m1 Hm) as (t2 & m2 & Hf2 & Hm2 & Hsent2).
      exists t2, m2. rewrite Hsent2. auto.
    + exists t1, m1. auto.
Qed.


(** Nothing but a token with a content sets isThinking to false. *)
Lemma thinking_kept_otherwise (r : result value) (t : Turn)
      (prev : list Message) (m : Message) :
  messages (state t) = prev ++ [m] ->
  is_token r = false ->
  exists t' m',
    final (apply_record r t) = Some t'
    /\ messages (state t') = prev ++ [m']
    /\ (isThinking m' = isThinking m \/ isThinking m' = Some true).
Proof.
  intros H Hr.
  destruct (apply_record_shape r t prev m H) as (t1 & m1 & Hf & Hm & _ & Hcase).
  exists t1, m1. split; [exact Hf|]. split; [exact Hm|].
  destruct Hcase as [->|[[_ [s ->]]|[Htok _]]];
    [left; reflexivity|right; reflexivity|congruence].
Qed.


End Shape.

(** ** Errors and the order of events *)

Section Turns.
Context {P : Platform}.
Local Abbreviation value := (json number).

Lemma apply_events_normal_shape (events : list (result value)) (t t1 : Turn)
      (prev : list Message) (m : Message) :
  messages (state t) = prev ++ [m] ->
  apply_events events t = Normal t1 ->
  exists m1, messages (state t1) = prev ++ [m1].
Proof.
  intros H Hn.
  destruct (apply_events_shape events t prev m H) as (t' & m' & Hf & Hm & _).
  rewrite Hn in Hf. injection Hf as <-. exists m'. exact Hm.
Qed.

Lemma thrown_message_text (data : value) (text : jsstring) :
  get data (lit "error") = Some (JStr text) -> text <> [] ->
  thrown_message data = text.
Proof.
  intros H Hne. unfold thrown_message, error_message. rewrite H.
  destruct text; [contradiction|reflexivity].
Qed.

(** C3.  When the records before it have been applied, a record of type
    error ends the turn in the [catch]: the last message, the one in
    progress, is removed, the messages before it are those the turn
    started with, the message thrown is on the error channel (the error
    text itself when the record carries a non-empty string), and
    isProcessing is reset; whatever follows the record plays no part. *)
Theorem error_event_rolls_back
        (pre post : list (result value)) (data : value) (e : ending)
        (t t1 : Turn) (prev : list Message) (m : Message) :
  has_type data (lit "error") = true ->
  messages (state t) = prev ++ [m] ->
  apply_events pre t = Normal t1 ->
  exists st',
    finish e (apply_events (pre ++ Ok data :: post) t) = Some st'
    /\ messages st' = prev
    /\ error st' = Some (thrown_message data)
    /\ isProcessing st' = false
    /\ (forall text, get data (lit "error") = Some (JStr text) ->
                     text <> [] -> error st' = Some text).
Proof.
  intros Hty Hm Hpre.
  destruct (apply_events_normal_shape pre t t1 prev m Hm Hpre) as [m1 Hm1].
  rewrite apply_events_app, Hpre. simpl.
  rewrite dispatch_error by exact Hty. simpl.
  eexists. split; [reflexivity|]. simpl.
  rewrite Hm1, removelast_last. repeat split.
  intros text Hg Hne. rewrite (thrown_message_text data text Hg Hne). reflexivity.
Qed.



(** The same in [handleSubmit]: when the stream holds a record of type
    error that is reached, the list is the one before the turn with the
    message of the user added, and the message thrown is the error shown. *)
Lemma handleSubmit_error_event
      (text baseUrl : jsstring) (chunks : list (list byte))
      (pre post : list (result value)) (data : value) (e : ending)
      (st : State) (t1 : Turn) :
  trim text <> [] ->
  isProcessing st = false ->
  stream_events chunks = pre ++ Ok data :: post ->
  has_type data (lit "error") = true ->
  apply_events pre {| state := begin_turn (trim text) baseUrl st;
                      messageContent := [] |} = Normal t1 ->
  exists st',
    handleSubmit text baseUrl (Body chunks e) st = Some st'
    /\ messages st' = messages st ++ [user_message (trim text)]
    /\ error st' = Some (thrown_message data)
    /\ isProcessing st' = false.
Proof.
  intros Ht Hp Hev Hty Hpre.
  rewrite handleSubmit_events by assumption. rewrite Hev.
  destruct (apply_events_normal_shape pre
              {| state := begin_turn (trim text) baseUrl st;
                 messageContent := [] |} t1
              (messages st ++ [user_message (trim text)]) placeholder
              eq_refl Hpre) as [m1 Hm1].
  rewrite apply_events_app, Hpre. simpl.
  rewrite dispatch_error by exact Hty. simpl.
  eexists. split; [reflexivity|]. simpl.
  rewrite Hm1, removelast_last. repeat split.
Qed.

(** C5, as the code has it.  What arrives after a record of type error
    is ignored: the turn ends as if the stream had stopped there. *)
Theorem events_after_error_ignored
        (pre post : list (result value)) (data : value) (t : Turn) :
  has_type data (lit "error") = true ->
  apply_events (pre ++ Ok data :: post) t = apply_events (pre ++ [Ok data]) t.
Proof.
  intros Hty. rewrite !apply_events_app. apply andThen_ext. intros s.
  simpl. rewrite dispatch_error by exact Hty. reflexivity.
Qed.

(** C7, as the code has it.  A line whose trimmed text starts with the
    marker and goes on with what [JSON.parse] rejects ends the turn in
    the [catch] with the message of that rejection: the message in
    progress is removed, isProcessing is reset, and the lines after it
    are not looked at. *)
Theorem malformed_record_aborts
        (chunks : list (list byte)) (before after : list jsstring)
        (line msg : jsstring) (e : ending) (t0 t : Turn) :
  complete_lines (snd (decode decoder_init (concat chunks)))
    = before ++ line :: after ->
  startsWith (trim line) (lit "data: ") = true ->
  JSON_parse (slice 6 (trim line)) = Err msg ->
  for_lines process_line before t0 = Normal t ->
  process_line line t = Throw msg t
  /\ exists st',
       finish e (read_loop process_line chunks new_reader t0) = Some st'
       /\ messages st' = removelast (messages (state t))
       /\ error st' = Some msg
       /\ isProcessing st' = false.
Proof.
  intros Hlines Hstart Hparse Hbefore.
  assert (Hline : process_line line t = Throw msg t).
  { unfold process_line, decode_line. rewrite Hstart, Hparse. reflexivity. }
  split; [exact Hline|].
  rewrite read_loop_lines by reflexivity. simpl app.
  rewrite Hlines, for_lines_app, Hbefore. simpl. rewrite Hline. simpl.
  eexists. split; [reflexivity|]. repeat split.
Qed.

(** C8.  A stream that delivers one record of type sources and then ends
    completes the turn without error: the assistant message stays, with
    the sources and still thinking; no error is set and isProcessing is
    cleared. *)
Theorem sources_then_eof
        (text baseUrl : jsstring) (chunks : list (list byte))
        (data : value) (st : State) :
  trim text <> [] ->
  isProcessing st = false ->
  stream_events chunks = [Ok data] ->
  has_type data (lit "sources") = true ->
  exists st',
    handleSubmit text baseUrl (Body chunks Eof) st = Some st'
    /\ messages st' =
         messages st ++
           [user_message (trim text);
            {| role := assistant; content := [];
               sources := get data (lit "sources");
               isThinking := Some true |}]
    /\ error st' = None
    /\ isProcessing st' = false.
Proof.
  intros Ht Hp Hev Hty.
  rewrite handleSubmit_events by assumption. rewrite Hev. simpl.
  rewrite dispatch_sources by exact Hty.
  erewrite setMessages_last_snoc
    with (prev := messages st ++ [user_message (trim text)]) (m := placeholder)
    by reflexivity.
  simpl. eexists. split; [reflexivity|]. simpl.
  rewrite <- app_assoc. repeat split.
Qed.

End Turns.

(** ** The stop button *)

Section StopButton.
Context {P : Platform}.
Local Abbreviation value := (json number).

Lemma alike_refl (c : completion Turn) : alike c c.
Proof. destruct c; simpl; auto. Qed.

Lemma alike_visible (c c' : completion Turn) :
  alike c c' -> map_completion visible c = map_completion visible c'.
Proof.
  destruct c, c'; simpl; try contradiction; try reflexivity.
  - intros ->. reflexivity.
  - intros [-> ->]. reflexivity.
Qed.

Lemma alike_andThen (c c' : completion Turn) (k k' : Turn -> completion Turn) :
  alike c c' ->
  (forall t t', visible t = visible t' -> alike (k t) (k' t')) ->
  alike (andThen c k) (andThen c' k').
Proof.
  intros Hc Hk. destruct c, c'; simpl in *; try contradiction; auto.
Qed.

Lemma setMessages_last_alike (f : Message -> Message) (t t' : Turn) :
  visible t = visible t' ->
  alike (setMessages_last f t) (setMessages_last f t').
Proof.
  unfold visible. intros H. injection H as Hm He Hs Hc.
  unfold setMessages_last. rewrite Hm.
  destruct (update_last f (messages (state t'))); simpl; [|exact I].
  unfold visible. simpl. congruence.
Qed.

(** The chain of tests reads the messages and the accumulated text, not
    the flags. *)
Lemma apply_record_alike (r : result value) (t t' : Turn) :
  visible t = visible t' -> alike (apply_record r t) (apply_record r t').
Proof.
  intros H. pose proof H as H'. unfold visible in H'.
  injection H' as Hm He Hs Hc.
  destruct r as [data|msg]; simpl; [|auto].
  destruct (has_type data (lit "sources")) eqn:Hsrc.
  { rewrite !dispatch_sources by exact Hsrc.
    apply setMessages_last_alike. exact H. }
  destruct (has_type data (lit "token")) eqn:Htok.
  { rewrite !dispatch_token by exact Htok.
    destruct (get data (lit "content")) as [c|]; [|exact H].
    destruct (ToString c) as [txt|msg]; [|simpl; auto].
    rewrite Hc.
    apply setMessages_last_alike. unfold visible. simpl. congruence. }
  destruct (has_type data (lit "error")) eqn:Herr.
  { rewrite !dispatch_error by exact Herr. simpl. auto. }
  assert (Hcases : data = JNull \/ data <> JNull)
    by (destruct data; [left; reflexivity|right; discriminate..]).
  destruct Hcases as [->|Hn]; [simpl; auto|].
  rewrite !dispatch_other by assumption.
  destruct (has_type data (lit "done") || truthy (get data (lit "done")));
    simpl; [|exact H].
  unfold visible. simpl. congruence.
Qed.

Lemma process_line_alike (line : jsstring) (t t' : Turn) :
  visible t = visible t' -> alike (process_line line t) (process_line line t').
Proof.
  intros H. unfold process_line.
  destruct (decode_line line); [apply apply_record_alike; exact H|exact H].
Qed.

Lemma for_lines_alike (lines : list jsstring) (t t' : Turn) :
  visible t = visible t' ->
  alike (for_lines process_line lines t) (for_lines process_line lines t').
Proof.
  revert t t'. induction lines as [|l rest IH]; intros t t' H; [exact H|].
  simpl. apply alike_andThen; [apply process_line_alike; exact H|exact IH].
Qed.

Lemma handleStop_visible (t : Turn) :
  visible {| state := handleStop (state t); messageContent := messageContent t |}
  = visible t.
Proof. reflexivity. Qed.

(** The loop goes on alike whether or not the button was pressed on the
    way. *)
Lemma run_alike (actions : list action) (r : Reader) (t t' : Turn) :
  visible t = visible t' ->
  alike (run actions r t) (read_loop process_line (reads actions) r t').
Proof.
  revert r t t'. induction actions as [|[value|] rest IH]; intros r t t' H.
  - exact H.
  - simpl. unfold on_chunk. destruct (decode (decoder r) value) as [d text].
    apply alike_andThen; [apply for_lines_alike; exact H|].
    intros s s' Hs. apply IH. exact Hs.
  - simpl. apply IH. rewrite handleStop_visible. exact H.
Qed.

Lemma setMessages_last_sent (f : Message -> Message) (t : Turn) :
  keeps_sent (sent (state t)) (setMessages_last f t).
Proof.
  unfold keeps_sent, setMessages_last.
  destruct (update_last f (messages (state t))); simpl; auto.
Qed.

(** No record makes the component send anything. *)
Lemma apply_record_sent (r : result value) (t : Turn) :
  keeps_sent (sent (state t)) (apply_record r t).
Proof.
  destruct r as [data|msg]; simpl; [|reflexivity].
  destruct (has_type data (lit "sources")) eqn:Hsrc.
  { rewrite dispatch_sources by exact Hsrc. apply setMessages_last_sent. }
  destruct (has_type data (lit "token")) eqn:Htok.
  { rewrite dispatch_token by exact Htok.
    destruct (get data (lit "content")) as [c|]; [|reflexivity].
    destruct (ToString c) as [txt|msg]; [|reflexivity].
    apply (setMessages_last_sent _
             {| state := state t; messageContent := messageContent t ++ txt |}). }
  destruct (has_type data (lit "error")) eqn:Herr.
  { rewrite dispatch_error by exact Herr. reflexivity. }
  assert (Hcases : data = JNull \/ data <> JNull)
    by (destruct data; [left; reflexivity|right; discriminate..]).
  destruct Hcases as [->|Hn]; [reflexivity|].
  rewrite dispatch_other by assumption.
  destruct (has_type data (lit "done") || truthy (get data (lit "done")));
    reflexivity.
Qed.

Lemma keeps_sent_andThen (s0 : list request) (c : completion Turn)
      (k : Turn -> completion Turn) :
  keeps_sent s0 c ->
  (forall t, sent (state t) = s0 -> keeps_sent s0 (k t)) ->
  keeps_sent s0 (andThen c k).
Proof.
  intros Hc Hk. destruct c as [t|m t|]; simpl; auto.
Qed.

Lemma for_lines_sent (lines : list jsstring) (t : Turn) :
  keeps_sent (sent (state t)) (for_lines process_line lines t).
Proof.
  revert t. induction lines as [|l rest IH]; intros t; [reflexivity|].
  simpl. apply keeps_sent_andThen.
  - unfold process_line. destruct (decode_line l);
      [apply apply_record_sent|reflexivity].
  - intros t' <-. apply IH.
Qed.

Lemma run_sent (actions : list action) (r : Reader) (t : Turn) :
  keeps_sent (sent (state t)) (run actions r t).
Proof.
  revert r t. induction actions as [|[value|] rest IH]; intros r t.
  - reflexivity.
  - simpl. unfold on_chunk. destruct (decode (decoder r) value) as [d text].
    apply keeps_sent_andThen; [apply for_lines_sent|].
    intros t' <-. apply IH.
  - simpl.
    apply (IH r {| state := handleStop (state t);
                   messageContent := messageContent t |}).
Qed.

(** The stop button does not end the read: with the button pressed at any
    points on the way, the chunks read give the same messages, error,
    requests and accumulated text as the loop left alone. *)
Lemma stop_leaves_the_read_running (actions : list action) (r : Reader)
      (t : Turn) :
  map_completion visible (run actions r t) =
  map_completion visible (read_loop process_line (reads actions) r t).
Proof. apply alike_visible, run_alike. reflexivity. Qed.

(** C6, as the code has it.  The stop button resets the two flags
    isProcessing and isThinking and nothing else: it leaves the messages
    and the error as they are, and it sends no request; nor is any request
    sent by what follows in the turn, whatever is read and however often
    the button is pressed. *)
Theorem stop_resets_flags_only (actions : list action) (r : Reader)
        (t : Turn) (st : State) :
  handleStop st =
    {| messages := messages st; error := error st; isProcessing := false;
       ui_isThinking := false; sent := sent st |}
  /\ keeps_sent (sent (state t)) (run (Stop :: actions) r t).
Proof.
  split; [reflexivity|]. apply run_sent.
Qed.

End StopButton.

(** ** The supervisor *)

Section SupervisorFacts.
Import Supervisor.

(** [stopBackend] does not change what the exit handler then schedules. *)
Lemma exit_after_stopBackend
      (code : option Z) (signal : option jsstring) (m : Main) :
  timers (on_exit code signal (stopBackend m)) = timers (on_exit code signal m).
Proof.
  unfold stopBackend, on_exit, window_alive.
  destruct (backendProcess m); simpl;
    destruct (mainWindow m) as [[[|]]|]; reflexivity.
Qed.

(** C9, as the code has it.  When the child process exits, whatever the
    exit code and signal (code 0 included, neither is consulted), the
    handler clears the ready flag and, if the main window exists and is
    not destroyed, schedules [startBackend] after 5000 ms, that is 5
    seconds; with no such window nothing is scheduled. *)
Theorem exit_restarts_while_window_alive
        (code code' : option Z) (signal signal' : option jsstring) (m : Main) :
  on_exit code signal m = on_exit code' signal' m
  /\ backendReady (on_exit code signal m) = false
  /\ timers (on_exit code signal m) =
       (if window_alive m
        then timers m ++ [{| handler := startBackend; delay_ms := 5000 |}]
        else timers m).
Proof.
  split; [reflexivity|].
  unfold on_exit, window_alive. simpl.
  destruct (mainWindow m) as [[[|]]|]; split; reflexivity.
Qed.

End SupervisorFacts.

(** ** Runs on the reference platform *)

Section Runs.
Import Reference Examples.
#[local] Existing Instance platform.
Local Abbreviation hello := (lit "hello").

(** *** The end-to-end scenarios *)

Lemma end_to_end_one_chunk :
  handleSubmit (P := platform) hello baseUrl (Body [scenario] Eof) idle =
  Some (setIsProcessing false (state (opened_with hi_there []))).
Proof. reflexivity. Qed.

Lemma end_to_end_single_bytes :
  handleSubmit (P := platform) hello baseUrl
    (Body (map (fun b => [b]) scenario) Eof) idle =
  Some (setIsProcessing false (state (opened_with hi_there []))).
Proof. reflexivity. Qed.

Lemma end_to_end_boom :
  handleSubmit (P := platform) hello baseUrl (Body [boom_line] Eof) idle =
  Some {| messages := [greeting; hello_user]; error := Some (lit "boom");
          isProcessing := false; ui_isThinking := false;
          sent := sent (state opened) |}.
Proof. reflexivity. Qed.

(** *** Instances of the theorems *)

(** The scenario on the turn opened by [hello]. *)
Lemma scenario_sources_tokens_done_witness :
  messages (state opened) = [greeting; hello_user] ++ [placeholder]
  /\ apply_events (P := platform)
       [Ok (ev_sources a_pdf); Ok (ev_token (lit "Hi"));
        Ok (ev_token (lit " there")); Ok ev_done]
       {| state := state opened; messageContent := [] |}
     = Normal
         {| state :=
              setIsProcessing false
                (setMessages
                   (fun _ => [greeting; hello_user] ++
                             [{| role := assistant; content := lit "Hi there";
                                 sources := Some a_pdf;
                                 isThinking := Some false |}])
                   (state opened));
            messageContent := lit "Hi there" |}.
Proof.
  split; [reflexivity|].
  apply (@scenario_sources_tokens_done platform (state opened)
           [greeting; hello_user]).
  reflexivity.
Defined.

(** sources, token, then error(boom), with a token after it. *)
Lemma error_event_rolls_back_witness :
  has_type (ev_error (lit "boom")) (lit "error") = true
  /\ messages (state opened) = [greeting; hello_user] ++ [placeholder]
  /\ apply_events (P := platform)
       [Ok (ev_sources a_pdf); Ok (ev_token (lit "Hi"))] opened
     = Normal (opened_with (answer (lit "Hi") (Some a_pdf) false) (lit "Hi"))
  /\ exists st',
       finish Eof
         (apply_events (P := platform)
            ([Ok (ev_sources a_pdf); Ok (ev_token (lit "Hi"))]
               ++ Ok (ev_error (lit "boom")) :: [Ok (ev_token (lit "late"))])
            opened) = Some st'
       /\ messages st' = [greeting; hello_user]
       /\ error st' = Some (thrown_message (ev_error (lit "boom")))
       /\ isProcessing st' = false
       /\ (forall text,
              get (ev_error (lit "boom")) (lit "error") = Some (JStr text) ->
              text <> [] -> error st' = Some text).
Proof.
  split; [reflexivity|]. split; [reflexivity|]. split; [reflexivity|].
  apply (@error_event_rolls_back platform
           [Ok (ev_sources a_pdf); Ok (ev_token (lit "Hi"))]
           [Ok (ev_token (lit "late"))] (ev_error (lit "boom")) Eof opened
           (opened_with (answer (lit "Hi") (Some a_pdf) false) (lit "Hi"))
           [greeting; hello_user] placeholder);
    reflexivity.
Defined.

(** The record [{type: token}] on the opened turn. *)
Lemma token_without_content_witness :
  has_type token_no_content (lit "token") = true
  /\ get token_no_content (lit "content") = None
  /\ dispatch (P := platform) token_no_content opened = Normal opened.
Proof.
  split; [reflexivity|]. split; [reflexivity|].
  apply (@token_without_content platform token_no_content opened); reflexivity.
Defined.


(** That run, computed: thinking with the sources set before the token,
    not thinking after it and at the end of the turn, which the line that
    does not parse ends. *)
Lemma thinking_run :
  apply_events [Ok (ev_sources a_pdf); Ok token_no_content; Ok ev_done] opened
  = Normal {| state := setIsProcessing false
                         (state (opened_with (answer [] (Some a_pdf) true) []));
              messageContent := [] |}
  /\ option_map (fun t => messages (state t))
       (final (apply_events
                 [Ok (ev_sources a_pdf); Ok token_no_content; Ok ev_done;
                  Ok (ev_token [])] opened))
     = Some [greeting; hello_user; answer [] (Some a_pdf) false]
  /\ option_map (fun t => messages (state t))
       (final (apply_events
                 [Ok (ev_sources a_pdf); Ok token_no_content; Ok ev_done;
                  Ok (ev_token []); Ok ev_done; Ok (ev_token (lit "late"));
                  Err SyntaxError] opened))
     = Some [greeting; hello_user; answer (lit "late") (Some a_pdf) false].
Proof. repeat split; reflexivity. Qed.

(** token, error(boom), then a token that is not looked at. *)
Lemma events_after_error_ignored_witness :
  has_type (ev_error (lit "boom")) (lit "error") = true
  /\ apply_events (P := platform)
       ([Ok (ev_token (lit "Hi"))]
          ++ Ok (ev_error (lit "boom")) :: [Ok (ev_token (lit "late"))]) opened
     = apply_events
         ([Ok (ev_token (lit "Hi"))] ++ [Ok (ev_error (lit "boom"))]) opened.
Proof.
  split; [reflexivity|].
  apply (@events_after_error_ignored platform [Ok (ev_token (lit "Hi"))]
           [Ok (ev_token (lit "late"))] (ev_error (lit "boom")) opened).
  reflexivity.
Defined.

(** A token, then a record cut short, in two chunks. *)
Lemma malformed_record_aborts_witness :
  complete_lines
    (snd (decode (P := platform) decoder_init
            (concat [hi_line; unfinished_line ++ late_line])))
    = [text "data: {'type':'token','content':'Hi'}"]
        ++ text "data: {'type':'token'"
        :: [text "data: {'type':'token','content':'late'}"]
  /\ startsWith (trim (text "data: {'type':'token'")) (lit "data: ") = true
  /\ JSON_parse (slice 6 (trim (text "data: {'type':'token'"))) = Err SyntaxError
  /\ for_lines process_line [text "data: {'type':'token','content':'Hi'}"] opened
     = Normal (opened_with (answer (lit "Hi") None false) (lit "Hi"))
  /\ process_line (text "data: {'type':'token'")
       (opened_with (answer (lit "Hi") None false) (lit "Hi"))
     = Throw SyntaxError (opened_with (answer (lit "Hi") None false) (lit "Hi"))
  /\ exists st',
       finish Eof
         (read_loop process_line [hi_line; unfinished_line ++ late_line]
            new_reader opened) = Some st'
       /\ messages st' =
            removelast
              (messages
                 (state (opened_with (answer (lit "Hi") None false) (lit "Hi"))))
       /\ error st' = Some SyntaxError
       /\ isProcessing st' = false.
Proof.
  split; [reflexivity|]. split; [reflexivity|].
  split; [reflexivity|]. split; [reflexivity|].
  apply (@malformed_record_aborts platform
           [hi_line; unfinished_line ++ late_line]
           [text "data: {'type':'token','content':'Hi'}"]
           [text "data: {'type':'token','content':'late'}"]
           (text "data: {'type':'token'") SyntaxError Eof opened
           (opened_with (answer (lit "Hi") None false) (lit "Hi")));
    reflexivity.
Defined.

(** The stream made of the sources line alone. *)
Lemma sources_then_eof_witness :
  trim hello <> []
  /\ isProcessing idle = false
  /\ stream_events [sources_line] = [Ok (ev_sources a_pdf)]
  /\ has_type (ev_sources a_pdf) (lit "sources") = true
  /\ exists st',
       handleSubmit hello baseUrl (Body [sources_line] Eof) idle = Some st'
       /\ messages st' =
            messages idle ++
              [user_message (trim hello);
               {| role := assistant; content := [];
                  sources := get (ev_sources a_pdf) (lit "sources");
                  isThinking := Some true |}]
       /\ error st' = None
       /\ isProcessing st' = false.
Proof.
  split; [discriminate|]. split; [reflexivity|].
  split; [reflexivity|]. split; [reflexivity|].
  apply (@sources_then_eof platform hello baseUrl [sources_line]
           (ev_sources a_pdf) idle);
    [discriminate|reflexivity|reflexivity|reflexivity].
Defined.

(** *** Where the code departs from the specification *)


(** Against C5: a token that comes after done is appended. *)
Lemma token_after_done_is_applied :
  option_map messages
    (handleSubmit hello baseUrl (Body [done_line] Eof) idle)
  = Some [greeting; hello_user; placeholder]
  /\ option_map messages
       (handleSubmit hello baseUrl (Body [done_line; late_line] Eof) idle)
     = Some [greeting; hello_user; answer (lit "late") None false].
Proof. split; reflexivity. Qed.

(** Against C6: a chunk read after the stop button was pressed is decoded
    and its token lands in the message list. *)
Lemma chunk_after_stop_is_applied :
  messages (handleStop (state opened)) = [greeting; hello_user; placeholder]
  /\ option_map (fun t => messages (state t))
       (final (run [Stop; Read late_line] new_reader opened))
     = Some [greeting; hello_user; answer (lit "late") None false].
Proof. split; reflexivity. Qed.

(** Against C7: the line made of the marker alone starts with the marker
    and what follows, the empty text, is not JSON; yet the line is
    skipped, and the stream goes on to the token after it. *)
Lemma blank_record_is_skipped :
  startsWith (text "data: ") (lit "data: ") = true
  /\ JSON_parse (slice 6 (text "data: ")) = Err SyntaxError
  /\ process_line (text "data: ") opened = Normal opened
  /\ handleSubmit hello baseUrl (Body [blank_line; hi_line] Eof) idle
     = Some (setIsProcessing false
               (state (opened_with (answer (lit "Hi") None false) [])))
  .
Proof. repeat split; reflexivity. Qed.

(** Against C9: with the backend ready and no window left the exit is not
    followed by a restart, for code 0 as for code 1, though [stopBackend]
    was never called; and after [stopBackend], with the window there, the
    exit of the killed process does schedule a restart. *)
Lemma exit_without_window_is_not_restarted :
  Supervisor.backendReady ready_no_window = true
  /\ Supervisor.restart_pending
       (Supervisor.on_exit (Some 0%Z) None ready_no_window) = false
  /\ Supervisor.restart_pending
       (Supervisor.on_exit (Some 1%Z) None ready_no_window) = false
  /\ Supervisor.restart_pending
       (Supervisor.on_exit None (Some (lit "SIGTERM"))
          (Supervisor.stopBackend ready_with_window)) = true.
Proof. repeat split. Qed.

End Runs.

(** * Further properties of the code *)

(** ** Trimming *)

Section TrimFacts.

Lemma trimStart_spaces (a l : jsstring) :
  forallb is_space a = true -> trimStart (a ++ l) = trimStart l.
Proof.
  induction a as [|c a IH]; intros H; [reflexivity|].
  simpl in H. apply andb_true_iff in H. destruct H as [Hc Ha].
  simpl. rewrite Hc. apply IH. exact Ha.
Qed.

Lemma trimStart_all_spaces (a : jsstring) :
  forallb is_space a = true -> trimStart a = [].
Proof.
  intros H. rewrite <- (app_nil_r a). rewrite trimStart_spaces by exact H.
  reflexivity.
Qed.

Lemma trimStart_app (l b : jsstring) :
  trimStart (l ++ b) =
  if forallb is_space l then trimStart b else trimStart l ++ b.
Proof.
  induction l as [|c l IH]; [reflexivity|].
  simpl. destruct (is_space c); [exact IH|reflexivity].
Qed.

Lemma forallb_rev (A : Type) (f : A -> bool) (l : list A) :
  forallb f (rev l) = forallb f l.
Proof.
  induction l as [|x l IH]; [reflexivity|].
  simpl. rewrite forallb_app, IH. simpl. rewrite andb_true_r. apply andb_comm.
Qed.

Lemma trimEnd_spaces (l b : jsstring) :
  forallb is_space b = true -> trimEnd (l ++ b) = trimEnd l.
Proof.
  intros H. unfold trimEnd. rewrite rev_app_distr.
  rewrite trimStart_spaces by (rewrite forallb_rev; exact H). reflexivity.
Qed.

Lemma trim_all_spaces (a : jsstring) :
  forallb is_space a = true -> trim a = [].
Proof.
  intros H. unfold trim. rewrite trimStart_all_spaces by exact H. reflexivity.
Qed.

(** White space around a text does not count for [trim]. *)
Lemma trim_spaces_around (a l b : jsstring) :
  forallb is_space a = true -> forallb is_space b = true ->
  trim (a ++ l ++ b) = trim l.
Proof.
  intros Ha Hb. unfold trim. rewrite trimStart_spaces by exact Ha.
  rewrite trimStart_app. destruct (forallb is_space l) eqn:Hl.
  - rewrite (trimStart_all_spaces b Hb), (trimStart_all_spaces l Hl).
    reflexivity.
  - apply trimEnd_spaces. exact Hb.
Qed.

End TrimFacts.

(** ** Lines of the stream *)

Section LineFacts.
Context {P : Platform}.

(** X7.  White space before and after a line, the carriage return of a
    line that ends with CR LF included, does not change what the loop does
    with the line. *)
Theorem line_spaces_ignored (a l b : jsstring) (t : Turn) :
  forallb is_space a = true ->
  forallb is_space b = true ->
  decode_line (a ++ l ++ b) = decode_line l
  /\ process_line (a ++ l ++ b) t = process_line l t.
Proof.
  intros Ha Hb.
  assert (Hd : decode_line (a ++ l ++ b) = decode_line l).
  { unfold decode_line. rewrite (trim_spaces_around a l b Ha Hb). reflexivity. }
  split; [exact Hd|]. unfold process_line. rewrite Hd. reflexivity.
Qed.

Lemma split_no_newline (s : jsstring) : ~ In LF s -> split s = [s].
Proof.
  induction s as [|c s IH]; intros H; [reflexivity|].
  simpl. destruct (N.eqb c LF) eqn:Hc.
  - apply N.eqb_eq in Hc. exfalso. apply H. left. exact Hc.
  - rewrite IH by (intros Hin; apply H; right; exact Hin). reflexivity.
Qed.

Lemma split_at_newline (x rest : jsstring) :
  ~ In LF x -> split (x ++ LF :: rest) = x :: split rest.
Proof.
  induction x as [|c x IH]; intros H; [reflexivity|].
  change ((c :: x) ++ LF :: rest) with (c :: (x ++ LF :: rest)).
  simpl. destruct (N.eqb c LF) eqn:Hc.
  - apply N.eqb_eq in Hc. exfalso. apply H. left. exact Hc.
  - rewrite IH by (intros Hin; apply H; right; exact Hin). reflexivity.
Qed.

Lemma last_no_newline (s : jsstring) : ~ In LF (last (split s) []).
Proof.
  induction s as [|c s IH]; [simpl; tauto|].
  pose proof (split_not_nil s) as Hne.
  simpl split. destruct (N.eqb c LF) eqn:Hc.
  - rewrite last_cons_ne by assumption. exact IH.
  - destruct (split s) as [|h [|h2 t]]; [contradiction| |exact IH].
    simpl in IH |- *. intros [Heq|Hin]; [|exact (IH Hin)].
    subst c. rewrite N.eqb_refl in Hc. discriminate.
Qed.

Lemma complete_lines_unterminated (text tail : jsstring) :
  ~ In LF tail -> complete_lines (text ++ LF :: tail) = split text.
Proof.
  intros H. unfold complete_lines. rewrite split_app.
  rewrite (split_at_newline _ tail (last_no_newline text)).
  rewrite (split_no_newline tail H).
  rewrite removelast_app_ne by discriminate.
  simpl. symmetry. apply app_removelast_last. apply split_not_nil.
Qed.

End LineFacts.

(** ** The carry-over buffer *)

Section BufferFacts.
Context {P : Platform}.

Lemma last_app_ne (A : Type) (l1 l2 : list A) (d : A) :
  l2 <> [] -> last (l1 ++ l2) d = last l2 d.
Proof.
  intros H. induction l1 as [|x l1 IH]; [reflexivity|].
  change ((x :: l1) ++ l2) with (x :: (l1 ++ l2)).
  rewrite last_cons_ne; [exact IH|].
  destruct l1; [exact H|discriminate].
Qed.

Lemma reader_after_text (chunks : list (list byte)) (r : Reader) :
  split (buffer r) = [buffer r] ->
  buffer (reader_after chunks r) =
  last (split (buffer r ++ snd (decode (decoder r) (concat chunks)))) [].
Proof.
  revert r. induction chunks as [|v rest IH]; intros r Hb.
  - simpl. rewrite app_nil_r, Hb. reflexivity.
  - simpl concat. rewrite decode_app. simpl snd.
    simpl reader_after. unfold on_chunk.
    destruct (decode (decoder r) v) as [d text]. simpl fst. simpl snd.
    rewrite IH by (simpl; apply split_last). simpl.
    rewrite app_assoc. rewrite (split_app (buffer r ++ text)).
    rewrite last_app_ne by apply split_not_nil. reflexivity.
Qed.

Lemma for_lines_keep (lines acc : list jsstring) :
  for_lines keep_line lines acc = Normal (acc ++ lines).
Proof.
  revert acc. induction lines as [|l rest IH]; intros acc; simpl.
  - rewrite app_nil_r. reflexivity.
  - rewrite IH, <- app_assoc. reflexivity.
Qed.

Lemma lines_given_text (chunks : list (list byte)) :
  lines_given chunks =
  complete_lines (snd (decode decoder_init (concat chunks))).
Proof.
  unfold lines_given. rewrite read_loop_lines by reflexivity.
  rewrite for_lines_keep. reflexivity.
Qed.

(** The complete lines, each with its newline, and the unfinished line
    make up the text again. *)
Lemma lines_and_rest (s : jsstring) :
  concat (map (fun l => l ++ [LF]) (complete_lines s)) ++ last (split s) [] = s.
Proof.
  unfold complete_lines. induction s as [|c s IH]; [reflexivity|].
  pose proof (split_not_nil s) as Hne.
  change (split (c :: s))
    with (if N.eqb c LF then [] :: split s
          else match split s with
               | [] => [[c]]
               | h :: t => (c :: h) :: t
               end).
  destruct (N.eqb c LF) eqn:Hc.
  - apply N.eqb_eq in Hc. subst c.
    rewrite removelast_cons_ne, last_cons_ne by assumption.
    rewrite map_cons, concat_cons, <- !app_assoc.
    change (LF :: (concat (map (fun l => l ++ [LF]) (removelast (split s)))
                     ++ last (split s) []) = LF :: s).
    f_equal. exact IH.
  - destruct (split s) as [|h [|h2 t]]; [contradiction| |].
    + simpl in IH |- *. rewrite IH. reflexivity.
    + rewrite removelast_cons_ne, last_cons_ne by discriminate.
      rewrite removelast_cons_ne, last_cons_ne in IH by discriminate.
      rewrite map_cons, concat_cons in IH |- *.
      rewrite <- !app_assoc in IH |- *. cbn [app] in IH |- *.
      f_equal. exact IH.
Qed.

(** X10.  Between the lines handed to the body of the loop and the buffer
    kept for the next chunk, nothing of the decoded text is lost, repeated
    or reordered: the lines, each followed by a newline, and then the
    buffer are the text decoded so far; and the buffer holds no newline. *)
Theorem buffer_carries_the_rest (chunks : list (list byte)) :
  concat (map (fun l => l ++ [LF]) (lines_given chunks))
    ++ buffer (reader_after chunks new_reader)
  = snd (decode decoder_init (concat chunks))
  /\ ~ In LF (buffer (reader_after chunks new_reader)).
Proof.
  rewrite lines_given_text, reader_after_text by reflexivity. simpl app.
  split; [apply lines_and_rest|apply last_no_newline].
Qed.

(** X9.  A last line that no newline ends is never handed to the body of
    the loop, whatever it holds: when the stream ends, the loop has run on
    the lines before it only. *)
Theorem unterminated_line_dropped
        (S : Type) (body : jsstring -> S -> completion S)
        (chunks : list (list byte)) (text tail : jsstring) (s : S) :
  snd (decode decoder_init (concat chunks)) = text ++ LF :: tail ->
  ~ In LF tail ->
  read_loop body chunks new_reader s = for_lines body (split text) s.
Proof.
  intros Htext Htail. rewrite read_loop_lines by reflexivity. simpl app.
  rewrite Htext, complete_lines_unterminated by exact Htail. reflexivity.
Qed.

End BufferFacts.

(** ** The outcome of a turn *)

Section SubmitFacts.
Context {P : Platform}.
Local Abbreviation value := (json number).

(** What a record leaves untouched, and what it keeps true. *)
Lemma apply_record_frame (r : result value) (t : Turn)
      (prev : list Message) (m : Message) :
  messages (state t) = prev ++ [m] ->
  exists t' m',
    final (apply_record r t) = Some t'
    /\ messages (state t') = prev ++ [m']
    /\ role m' = role m
    /\ error (state t') = error (state t)
    /\ sent (state t') = sent (state t)
    /\ (role m = assistant -> content m = messageContent t ->
        content m' = messageContent t').
Proof.
  intros H.
  assert (Hsame : exists t' m',
             Some t = Some t'
             /\ messages (state t') = prev ++ [m']
             /\ role m' = role m
             /\ error (state t') = error (state t)
             /\ sent (state t') = sent (state t)
             /\ (role m = assistant -> content m = messageContent t ->
                 content m' = messageContent t'))
    by (exists t, m; auto 10).
  destruct r as [data|msg]; simpl apply_record; [|exact Hsame].
  destruct (has_type data (lit "sources")) eqn:Hs.
  { rewrite dispatch_sources by exact Hs.
    rewrite (setMessages_last_snoc _ _ _ _ H). simpl final.
    eexists; eexists; split; [reflexivity|]. simpl.
    split; [reflexivity|].
    destruct (role m) eqn:Hr; simpl; rewrite ?Hr; auto 10. }
  destruct (has_type data (lit "token")) eqn:Hk.
  { rewrite dispatch_token by exact Hk.
    destruct (get data (lit "content")) as [c|]; [|exact Hsame].
    destruct (ToString c) as [txt|msg]; [|exact Hsame].
    erewrite setMessages_last_snoc by exact H. simpl final.
    eexists; eexists; split; [reflexivity|]. simpl.
    split; [reflexivity|].
    destruct (role m) eqn:Hr; simpl; rewrite ?Hr; repeat split; auto.
    discriminate. }
  destruct (has_type data (lit "error")) eqn:He.
  { rewrite dispatch_error by exact He. exact Hsame. }
  assert (Hcases : data = JNull \/ data <> JNull)
    by (destruct data; [left; reflexivity|right; discriminate..]).
  destruct Hcases as [->|Hn]; [exact Hsame|].
  rewrite dispatch_other by assumption.
  destruct (has_type data (lit "done") || truthy (get data (lit "done")));
    [|exact Hsame].
  eexists; exists m; simpl; auto 10.
Qed.

Lemma apply_events_frame (events : list (result value)) (t : Turn)
      (prev : list Message) (m : Message) :
  messages (state t) = prev ++ [m] ->
  exists t' m',
    final (apply_events events t) = Some t'
    /\ messages (state t') = prev ++ [m']
    /\ role m' = role m
    /\ error (state t') = error (state t)
    /\ sent (state t') = sent (state t)
    /\ (role m = assistant -> content m = messageContent t ->
        content m' = messageContent t').
Proof.
  revert t m. induction events as [|r rest IH]; intros t m H.
  - exists t, m. simpl. auto 10.
  - simpl. rewrite final_andThen.
    destruct (apply_record_frame r t prev m H)
      as (t1 & m1 & Hf & Hm & Hr & He & Hs & Hc).
    destruct (apply_record r t) as [s|msg s|]; simpl in Hf; try discriminate;
      injection Hf as ->.
    + destruct (IH t1 m1 Hm) as (t2 & m2 & Hf2 & Hm2 & Hr2 & He2 & Hs2 & Hc2).
      exists t2, m2. rewrite Hr2, He2, Hs2. repeat split; auto.
      intros Ha Hcm. apply Hc2; [congruence|auto].
    + exists t1, m1. auto 10.
Qed.

(** How the inner [try] ends on a turn in progress. *)
Lemma turn_outcome (events : list (result value)) (e : ending) (t : Turn)
      (prev : list Message) (m : Message) :
  messages (state t) = prev ++ [m] ->
  role m = assistant ->
  error (state t) = None ->
  exists st',
    finish e (apply_events events t) = Some st'
    /\ isProcessing st' = false
    /\ sent st' = sent (state t)
    /\ ((error st' = None
         /\ exists m', messages st' = prev ++ [m'] /\ role m' = assistant)
        \/ (exists msg, error st' = Some msg /\ messages st' = prev)).
Proof.
  intros H Hr He.
  destruct (apply_events_frame events t prev m H)
    as (t1 & m1 & Hf & Hm & Hr1 & He1 & Hs1 & _).
  destruct (apply_events events t) as [s|msg s|]; simpl in Hf; try discriminate;
    injection Hf as ->.
  - destruct e as [|msg]; simpl; eexists; (split; [reflexivity|]); simpl.
    + split; [reflexivity|]. split; [exact Hs1|]. left.
      split; [congruence|]. exists m1. split; [exact Hm|congruence].
    + split; [reflexivity|]. split; [exact Hs1|]. right.
      exists msg. split; [reflexivity|]. rewrite Hm. apply removelast_last.
  - simpl. eexists. split; [reflexivity|]. simpl.
    split; [reflexivity|]. split; [exact Hs1|]. right.
    exists msg. split; [reflexivity|]. rewrite Hm. apply removelast_last.
Qed.

Lemma handleSubmit_accepted (text baseUrl : jsstring) (resp : response)
      (st : State) :
  trim text <> [] -> isProcessing st = false ->
  handleSubmit text baseUrl resp st =
  match resp with
  | FetchRejects m => Some (on_catch m (begin_turn (trim text) baseUrl st))
  | NotOk => Some (on_catch (lit "Failed to get response")
                     (begin_turn (trim text) baseUrl st))
  | NoBody => Some (on_catch (lit "No response body")
                      (begin_turn (trim text) baseUrl st))
  | Body chunks e =>
      finish e (apply_events (stream_events chunks)
                  {| state := begin_turn (trim text) baseUrl st;
                     messageContent := [] |})
  end.
Proof.
  intros Ht Hp. destruct resp as [m| | |chunks e];
    try (unfold handleSubmit; rewrite Hp;
         destruct (trim text); [contradiction|reflexivity]).
  apply handleSubmit_events; assumption.
Qed.

(** Everything an accepted submission ends with. *)
Lemma submit_full (text baseUrl : jsstring) (resp : response) (st : State) :
  trim text <> [] -> isProcessing st = false ->
  exists st',
    handleSubmit text baseUrl resp st = Some st'
    /\ isProcessing st' = false
    /\ sent st' =
         sent st ++ [{| url := baseUrl ++ lit "/chat/stream";
                        method := lit "POST";
                        body_message := trim text |}]
    /\ ((error st' = None
         /\ exists m', messages st' = messages st ++ [user_message (trim text); m']
                       /\ role m' = assistant)
        \/ (exists msg, error st' = Some msg
                        /\ messages st' = messages st ++ [user_message (trim text)])).
Proof.
  intros Ht Hp. rewrite handleSubmit_accepted by assumption.
  assert (Hcatch : forall msg,
             exists st',
               Some (on_catch msg (begin_turn (trim text) baseUrl st)) = Some st'
               /\ isProcessing st' = false
               /\ sent st' =
                    sent st ++ [{| url := baseUrl ++ lit "/chat/stream";
                                   method := lit "POST";
                                   body_message := trim text |}]
               /\ ((error st' = None
                    /\ exists m', messages st' =
                                    messages st ++ [user_message (trim text); m']
                                  /\ role m' = assistant)
                   \/ (exists msg', error st' = Some msg'
                                    /\ messages st' =
                                         messages st ++ [user_message (trim text)]))).
  { intros msg. eexists. split; [reflexivity|]. simpl.
    split; [reflexivity|]. split; [reflexivity|]. right. exists msg.
    split; [reflexivity|]. apply removelast_last. }
  destruct resp as [m| | |chunks e]; try apply Hcatch.
  destruct (turn_outcome (stream_events chunks) e
              {| state := begin_turn (trim text) baseUrl st; messageContent := [] |}
              (messages st ++ [user_message (trim text)]) placeholder
              eq_refl eq_refl eq_refl)
    as (st' & Hf & Hproc & Hsent & Hcase).
  exists st'. split; [exact Hf|]. split; [exact Hproc|].
  split; [exact Hsent|].
  destruct Hcase as [[He (m' & Hm & Hr)]|(msg & He & Hm)].
  - left. split; [exact He|]. exists m'. rewrite Hm, <- app_assoc. auto.
  - right. exists msg. auto.
Qed.

(** X1.  A text made of white space only, the empty text included, is not
    submitted, and nothing is submitted while a turn is in progress: the
    state stays as it is, so no message is added and no request sent. *)
Theorem submit_guard (text baseUrl : jsstring) (resp : response) (st : State) :
  forallb is_space text = true \/ isProcessing st = true ->
  handleSubmit text baseUrl resp st = Some st.
Proof.
  intros [Hs|Hp]; unfold handleSubmit.
  - rewrite (trim_all_spaces text Hs). reflexivity.
  - rewrite Hp, orb_true_r. reflexivity.
Qed.

(** X2.  An accepted submission sends exactly one request, whatever it
    meets: a POST to the address of the backend followed by /chat/stream,
    with the trimmed text as message. *)
Theorem submit_sends_one_request
        (text baseUrl : jsstring) (resp : response) (st st' : State) :
  trim text <> [] ->
  isProcessing st = false ->
  handleSubmit text baseUrl resp st = Some st' ->
  sent st' = sent st ++ [{| url := baseUrl ++ lit "/chat/stream";
                            method := lit "POST";
                            body_message := trim text |}].
Proof.
  intros Ht Hp H.
  destruct (submit_full text baseUrl resp st Ht Hp) as (st1 & H1 & _ & Hs & _).
  congruence.
Qed.


End SubmitFacts.

(** ** The answer as it is built *)

Section AnswerFacts.
Context {P : Platform}.
Local Abbreviation value := (json number).

(** X4.  When the connection breaks in the middle of a stream whose
    records so far were applied, the partial answer is taken back: the
    list is the one before the turn with the message of the user, the
    message of the rejection is the error shown, and isProcessing is
    false. *)
Theorem read_rejection_rolls_back
        (text baseUrl msg : jsstring) (chunks : list (list byte))
        (st : State) (t1 : Turn) :
  trim text <> [] ->
  isProcessing st = false ->
  apply_events (stream_events chunks)
    {| state := begin_turn (trim text) baseUrl st; messageContent := [] |}
    = Normal t1 ->
  exists st',
    handleSubmit text baseUrl (Body chunks (ReadRejects msg)) st = Some st'
    /\ messages st' = messages st ++ [user_message (trim text)]
    /\ error st' = Some msg
    /\ isProcessing st' = false.
Proof.
  intros Ht Hp Hn. rewrite handleSubmit_events by assumption.
  destruct (apply_events_frame (stream_events chunks)
              {| state := begin_turn (trim text) baseUrl st; messageContent := [] |}
              (messages st ++ [user_message (trim text)]) placeholder eq_refl)
    as (t' & m' & Hf & Hm & _).
  rewrite Hn in Hf |- *. injection Hf as <-. simpl.
  eexists. split; [reflexivity|]. simpl.
  rewrite Hm, removelast_last. auto.
Qed.

(** X5.  All along a turn the content of the assistant message in progress
    is the text accumulated in [messageContent]: true when the turn
    starts, it stays true after any records, where the turn goes on as
    where it throws. *)
Theorem content_is_accumulated_text
        (events : list (result value)) (t : Turn)
        (prev : list Message) (m : Message) :
  messages (state t) = prev ++ [m] ->
  role m = assistant ->
  content m = messageContent t ->
  exists t' m',
    final (apply_events events t) = Some t'
    /\ messages (state t') = prev ++ [m']
    /\ content m' = messageContent t'.
Proof.
  intros H Hr Hc.
  destruct (apply_events_frame events t prev m H)
    as (t' & m' & Hf & Hm & _ & _ & _ & Hinv).
  exists t', m'. auto.
Qed.

Lemma with_content_twice (c c' : jsstring) (m : Message) :
  with_content c (with_content c' m) = with_content c m.
Proof. reflexivity. Qed.

Lemma tokens_concatenate_cons (s : jsstring) (texts : list jsstring) (t : Turn)
      (prev : list Message) (m : Message) :
  messages (state t) = prev ++ [m] ->
  role m = assistant ->
  apply_events (map (fun s => Ok (ev_token s)) (s :: texts)) t
  = Normal
      {| state :=
           setMessages
             (fun _ => prev ++ [with_content
                                  (messageContent t ++ concat (s :: texts)) m])
             (state t);
         messageContent := messageContent t ++ concat (s :: texts) |}.
Proof.
  revert s t m. induction texts as [|s2 rest IH]; intros s t m H Hr.
  - cbn [map apply_events apply_record]. rewrite dispatch_ev_token.
    erewrite setMessages_last_snoc by exact H. rewrite Hr.
    cbn [andThen concat]. rewrite app_nil_r. reflexivity.
  - change (map (fun s => Ok (ev_token s)) (s :: s2 :: rest))
      with (Ok (ev_token s) :: map (fun s => Ok (ev_token s)) (s2 :: rest)).
    cbn [apply_events apply_record]. rewrite dispatch_ev_token.
    erewrite setMessages_last_snoc by exact H. rewrite Hr. cbn [andThen].
    rewrite (IH s2 _ (with_content (messageContent t ++ s) m))
      by first [exact Hr | reflexivity].
    simpl. rewrite <- !app_assoc. reflexivity.
Qed.

(** X6.  The tokens of an answer are put end to end: after a run of token
    records with text contents, the content of the assistant message is
    what was accumulated before followed by the texts in the order of
    arrival, and isThinking is false; sources and the messages before are
    as they were. *)
Theorem tokens_concatenate (texts : list jsstring) (t : Turn)
        (prev : list Message) (m : Message) :
  texts <> [] ->
  messages (state t) = prev ++ [m] ->
  role m = assistant ->
  apply_events (map (fun s => Ok (ev_token s)) texts) t
  = Normal
      {| state :=
           setMessages
             (fun _ => prev ++ [{| role := assistant;
                                   content := messageContent t ++ concat texts;
                                   sources := sources m;
                                   isThinking := Some false |}])
             (state t);
         messageContent := messageContent t ++ concat texts |}.
Proof.
  intros Hne H Hr. destruct texts as [|s texts]; [contradiction|].
  rewrite (tokens_concatenate_cons s texts t prev m H Hr).
  unfold with_content. rewrite Hr. reflexivity.
Qed.

(** X8.  A stream that ends without a single record, empty or made of
    lines that are not records, ends the turn without error and leaves the
    placeholder as it was put: empty and still thinking. *)
Theorem empty_stream_leaves_placeholder
        (text baseUrl : jsstring) (chunks : list (list byte)) (st : State) :
  trim text <> [] ->
  isProcessing st = false ->
  stream_events chunks = [] ->
  exists st',
    handleSubmit text baseUrl (Body chunks Eof) st = Some st'
    /\ messages st' = messages st ++ [user_message (trim text); placeholder]
    /\ error st' = None
    /\ isProcessing st' = false.
Proof.
  intros Ht Hp Hev. rewrite handleSubmit_events by assumption. rewrite Hev.
  simpl. eexists. split; [reflexivity|]. simpl.
  rewrite <- app_assoc. auto.
Qed.

(** X11.  A record of type done is not needed: with it or without it as
    the last record before the stream ends, the turn ends in the same
    state, be it at the end of the stream or on a failed read. *)
Theorem done_is_optional
        (events : list (result value)) (data : value) (e : ending) (t : Turn) :
  has_type data (lit "done") = true ->
  finish e (apply_events (events ++ [Ok data]) t) = finish e (apply_events events t).
Proof.
  intros Hd.
  assert (Hn : data <> JNull) by (intros ->; discriminate).
  assert (Hs : has_type data (lit "sources") = false)
    by (eapply has_type_unique; [exact Hd | discriminate]).
  assert (Hk : has_type data (lit "token") = false)
    by (eapply has_type_unique; [exact Hd | discriminate]).
  assert (He : has_type data (lit "error") = false)
    by (eapply has_type_unique; [exact Hd | discriminate]).
  rewrite apply_events_app.
  destruct (apply_events events t) as [s|msg s|]; simpl; [|reflexivity..].
  rewrite dispatch_other by assumption. rewrite Hd. simpl.
  destruct e; reflexivity.
Qed.

End AnswerFacts.

(** ** Starting the backend *)

Section BackendFacts.
Import Supervisor Backend.

Lemma probe_from_bound (h : Host) (fuel : nat) (port p : N) :
  (0 < port)%N ->
  probe_from h fuel port = Bound p ->
  listens h p = true
  /\ (port <= p < port + N.of_nat fuel)%N
  /\ forall q, (port <= q < p)%N -> listens h q = false.
Proof.
  revert port. induction fuel as [|fuel IH]; intros port Hpos H;
    [discriminate|].
  simpl in H. destruct (listens h port) eqn:Hl.
  - assert (Hz : (port =? 0)%N = false) by (apply N.eqb_neq; lia).
    rewrite Hz in H. injection H as <-.
    split; [exact Hl|]. split; [lia|]. intros q Hq. lia.
  - destruct (IH (port + 1)%N ltac:(lia) H) as (Hp & Hr & Hlow).
    split; [exact Hp|]. split; [lia|].
    intros q Hq. destruct (N.eq_dec q port) as [->|Hne]; [exact Hl|].
    apply Hlow. lia.
Qed.

Lemma probe_from_bad (h : Host) (fuel : nat) (port q : N) :
  probe_from h fuel port = BadPort q ->
  q = (port + N.of_nat fuel)%N
  /\ forall p, (port <= p < q)%N -> listens h p = false.
Proof.
  revert port. induction fuel as [|fuel IH]; intros port H.
  - injection H as <-. split; [simpl; lia|]. intros p Hp. lia.
  - simpl in H. destruct (listens h port) eqn:Hl; [discriminate|].
    destruct (IH (port + 1)%N H) as (Hq & Hlow).
    split; [lia|].
    intros p Hp. destruct (N.eq_dec p port) as [->|Hne]; [exact Hl|].
    apply Hlow. lia.
Qed.

Lemma findAvailablePort_bound_listens (h : Host) (startPort p : N) :
  (0 < startPort)%N ->
  findAvailablePort h startPort = Bound p ->
  listens h p = true /\ (startPort <= p <= 65535)%N.
Proof.
  intros Hpos H. unfold findAvailablePort in H.
  destruct (probe_from_bound h _ _ _ Hpos H) as (Hp & Hr & _).
  split; [exact Hp|lia].
Qed.

(** X12.  The port [findAvailablePort] returns is the first one, from the
    starting port upwards, on which a server could listen: it is free, it
    is not below the starting port nor above 65535, and every port from
    the starting port up to it was refused. *)
Theorem findAvailablePort_first_free (h : Host) (startPort p : N) :
  (0 < startPort)%N ->
  findAvailablePort h startPort = Bound p ->
  listens h p = true
  /\ (startPort <= p <= 65535)%N
  /\ forall q, (startPort <= q < p)%N -> listens h q = false.
Proof.
  intros Hpos H. unfold findAvailablePort in H.
  destruct (probe_from_bound h _ _ _ Hpos H) as (Hp & Hr & Hlow).
  split; [exact Hp|]. split; [lia|exact Hlow].
Qed.

(** X13.  [findAvailablePort] fails only when it has run out of ports: the
    error is the one of port 65536 (or of the starting port, when that is
    higher), and every port from the starting port to 65535 was refused.
    Nothing else bounds the search. *)
Theorem findAvailablePort_exhausted (h : Host) (startPort q : N) :
  findAvailablePort h startPort = BadPort q ->
  q = N.max startPort 65536
  /\ forall p, (startPort <= p <= 65535)%N -> listens h p = false.
Proof.
  intros H. unfold findAvailablePort in H.
  destruct (probe_from_bad h _ _ _ H) as (Hq & Hlow).
  split; [lia|]. intros p Hp. apply Hlow. lia.
Qed.

Lemma poll_first_ok (h : Host) (left k i : nat) (m : Main) (ms : N) :
  i < left ->
  health h (backendPort m) (k + i) = true ->
  (forall j, j < i -> health h (backendPort m) (k + j) = false) ->
  poll h left k m ms = Responding (set_ready m) (ms + 1000 * N.of_nat i).
Proof.
  revert left k ms. induction i as [|i IH]; intros left k ms Hlt Hok Hbefore.
  - destruct left as [|left]; [lia|]. simpl.
    rewrite Nat.add_0_r in Hok. rewrite Hok. f_equal. lia.
  - destruct left as [|left]; [lia|]. simpl.
    specialize (Hbefore 0 ltac:(lia)) as H0. rewrite Nat.add_0_r in H0.
    rewrite H0. rewrite (IH left (S k)).
    + f_equal. lia.
    + lia.
    + replace (S k + i) with (k + S i) by lia. exact Hok.
    + intros j Hj. replace (S k + j) with (k + S j) by lia. apply Hbefore. lia.
Qed.

Lemma poll_never_ok (h : Host) (left k : nat) (m : Main) (ms : N) :
  (forall j, j < left -> health h (backendPort m) (k + j) = false) ->
  poll h left k m ms =
  GaveUp (lit "Backend failed to start after 30 seconds") m
         (ms + 1000 * N.of_nat left).
Proof.
  revert k ms. induction left as [|left IH]; intros k ms H.
  - simpl. f_equal. lia.
  - simpl. specialize (H 0 ltac:(lia)) as H0. rewrite Nat.add_0_r in H0.
    rewrite H0. rewrite IH.
    + f_equal. lia.
    + intros j Hj. replace (S k + j) with (k + S j) by lia. apply H. lia.
Qed.

(** X14.  [waitForBackend] returns at the first request to /health that
    is answered with success: if that is request number [i], counted from
    0 and below the number of attempts, it has waited [i] seconds, and it
    leaves the backend marked ready and nothing else changed. *)
Theorem waitForBackend_first_answer
        (h : Host) (maxAttempts i : nat) (m : Main) (ms : N) :
  i < maxAttempts ->
  health h (backendPort m) i = true ->
  (forall j, j < i -> health h (backendPort m) j = false) ->
  waitForBackend h maxAttempts m ms =
  Responding (set_ready m) (ms + 1000 * N.of_nat i).
Proof.
  intros Hlt Hok Hbefore. unfold waitForBackend.
  apply poll_first_ok; assumption.
Qed.

(** X15.  When none of the attempts is answered with success,
    [waitForBackend] gives up after as many seconds as attempts, with an
    error that says 30 seconds whatever the number of attempts, and it
    leaves the main process as it found it. *)
Theorem waitForBackend_gives_up (h : Host) (maxAttempts : nat) (m : Main) (ms : N) :
  (forall j, j < maxAttempts -> health h (backendPort m) j = false) ->
  waitForBackend h maxAttempts m ms =
  GaveUp (lit "Backend failed to start after 30 seconds") m
         (ms + 1000 * N.of_nat maxAttempts).
Proof.
  intros H. unfold waitForBackend. apply poll_never_ok. exact H.
Qed.

(** X16.  [stopBackend] can be called again without harm: the second call
    changes nothing, so the process gets one SIGTERM and no more; and the
    call leaves no process referenced and the backend not ready. *)
Theorem stopBackend_idempotent (m : Main) :
  stopBackend (stopBackend m) = stopBackend m
  /\ backendProcess (stopBackend m) = None
  /\ signals (stopBackend m) =
       signals m ++ match backendProcess m with
                    | Some p => [(p, lit "SIGTERM")]
                    | None => []
                    end.
Proof.
  unfold stopBackend. destruct (backendProcess m) eqn:Hp; simpl.
  - auto.
  - rewrite Hp, app_nil_r. auto.
Qed.

Lemma exits_window (events : list (option Z * option jsstring)) (m : Main) :
  window_alive (exits events m) = window_alive m.
Proof.
  revert m. induction events as [|[code signal] rest IH]; intros m;
    [reflexivity|].
  simpl. rewrite IH. unfold on_exit, window_alive. simpl.
  destruct (mainWindow m) as [[[|]]|]; reflexivity.
Qed.

(** X17.  Restarts are not capped and their delay does not grow: while the
    main window is there, every exit of the child adds one more pending
    [startBackend], each after the same 5000 ms, however many exits came
    before. *)
Theorem every_exit_schedules_a_restart
        (events : list (option Z * option jsstring)) (m : Main) :
  window_alive m = true ->
  timers (exits events m) =
  timers m ++ repeat {| handler := Supervisor.startBackend; delay_ms := 5000 |}
                     (length events).
Proof.
  revert m. induction events as [|[code signal] rest IH]; intros m Hw.
  - simpl. rewrite app_nil_r. reflexivity.
  - simpl exits. rewrite IH.
    + unfold on_exit. simpl. unfold window_alive in Hw |- *. simpl.
      rewrite Hw. simpl. rewrite <- app_assoc. reflexivity.
    + unfold on_exit, window_alive in *. simpl.
      destruct (mainWindow m) as [[[|]]|]; try discriminate. reflexivity.
Qed.

End BackendFacts.

(** ** A start of the backend from end to end *)

Section StartFacts.
Import Supervisor Backend.

Lemma property_app (key : jsstring) (a b : list (jsstring * jsstring)) :
  property key (a ++ b) =
  match property key b with
  | Some v => Some v
  | None => property key a
  end.
Proof.
  induction a as [|[k v] a IH]; simpl.
  - destruct (property key b); reflexivity.
  - rewrite IH. destruct (property key b); reflexivity.
Qed.

Lemma backend_env_port (h : Host) (paths : UserPaths) (port : N) :
  property (lit "BACKEND_PORT") (backend_env h paths port) = Some (port_text port).
Proof. unfold backend_env. rewrite property_app. reflexivity. Qed.

(** X18.  The environment of the child: the six variables main.js sets
    have the values of this start, whatever [process.env] held under those
    names, the port among them; every other variable is the one of
    [process.env]. *)
Theorem backend_env_property (h : Host) (paths : UserPaths) (port : N)
        (key : jsstring) :
  property key (backend_env h paths port) =
  if JSString.eqb (lit "PYTHONNOUSERSITE") key then Some (lit "1")
  else if JSString.eqb (lit "PYTHONUNBUFFERED") key then Some (lit "1")
  else if JSString.eqb (lit "BACKEND_PORT") key then Some (port_text port)
  else if JSString.eqb (lit "CONFIG_DIR") key then Some (config paths)
  else if JSString.eqb (lit "CHROMA_DB_DIR") key then Some (chroma_db paths)
  else if JSString.eqb (lit "KNOWLEDGE_BASE_DIR") key
       then Some (knowledge_base paths)
  else property key (process_env h).
Proof.
  unfold backend_env. rewrite property_app. cbn [property].
  destruct (JSString.eqb (lit "PYTHONNOUSERSITE") key); [reflexivity|].
  destruct (JSString.eqb (lit "PYTHONUNBUFFERED") key); [reflexivity|].
  destruct (JSString.eqb (lit "BACKEND_PORT") key); [reflexivity|].
  destruct (JSString.eqb (lit "CONFIG_DIR") key); [reflexivity|].
  destruct (JSString.eqb (lit "CHROMA_DB_DIR") key); [reflexivity|].
  destruct (JSString.eqb (lit "KNOWLEDGE_BASE_DIR") key); reflexivity.
Qed.

Lemma backend_child_env (h : Host) (paths : UserPaths) (port : N) :
  env (backend_child h paths port) = backend_env h paths port.
Proof. unfold backend_child. destruct (isDev h); reflexivity. Qed.

(** X19.  A start that succeeds agrees with itself on the port: the port
    found free from 8000 upwards is the one kept in [backendPort], the one
    given to the child as BACKEND_PORT, the one polled for health and the
    one in the address handed to the window; the child is referenced, the
    backend is ready, no error box is shown, and the wait was one second
    for every request that failed. *)
Theorem startBackend_succeeds
        (h : Host) (w : World) (port : N) (paths : UserPaths) (i : nat) :
  findAvailablePort h 8000 = Bound port ->
  userPaths h = Ok paths ->
  i < 30 ->
  health h port i = true ->
  (forall j, j < i -> health h port j = false) ->
  backendPort (main (startBackend h w)) = port
  /\ backendReady (main (startBackend h w)) = true
  /\ backendProcess (main (startBackend h w)) = Some (pid h)
  /\ children (startBackend h w) =
       children w ++ [(pid h, backend_child h paths port)]
  /\ property (lit "BACKEND_PORT") (env (backend_child h paths port))
       = Some (port_text port)
  /\ get_backend_url (main (startBackend h w))
       = lit "http://127.0.0.1:" ++ port_text port
  /\ dialogs (startBackend h w) = dialogs w
  /\ waited_ms (startBackend h w) = (waited_ms w + 1000 * N.of_nat i)%N.
Proof.
  intros Hport Hpaths Hi Hok Hbefore. unfold startBackend, waitForBackend.
  rewrite Hport, Hpaths.
  rewrite (poll_first_ok h 30 0 i
             (set_process (pid h) (set_port port (main w))) (waited_ms w) Hi)
    by assumption.
  rewrite backend_child_env, backend_env_port. simpl. repeat split.
Qed.

Lemma poll_quiet (h : Host) (left i : nat) (m : Main)
      (d : list (jsstring * jsstring)) (c : list (N * child)) (ms : N) :
  Handlers.poll h Handlers.quiet left i
    {| main := m; dialogs := d; children := c; waited_ms := ms |} =
  match poll h left i m ms with
  | Responding m' ms' =>
      Handlers.Returned
        {| main := m'; dialogs := d; children := c; waited_ms := ms' |}
  | GaveUp message m' ms' =>
      Handlers.Threw message
        {| main := m'; dialogs := d; children := c; waited_ms := ms' |}
  end.
Proof.
  revert i ms. induction left as [|left IH]; intros i ms; [reflexivity|].
  simpl. destruct (health h (backendPort m) i); [reflexivity|].
  apply IH.
Qed.

(** With nothing running in between, the function with its handlers is
    the one above. *)
Lemma startBackend_quiet (h : Host) (w : World) :
  Handlers.startBackend h Handlers.quiet w = startBackend h w.
Proof.
  unfold Handlers.startBackend, startBackend, Handlers.waitForBackend,
    waitForBackend.
  change (Handlers.quiet 0 w) with w. unfold Handlers.with_main.
  destruct w as [m d c ms]. cbv beta zeta. cbn [main dialogs children waited_ms].
  destruct (findAvailablePort h 8000) as [port|p]; [|reflexivity].
  destruct (userPaths h) as [paths|message]; [|reflexivity].
  rewrite poll_quiet.
  destruct (poll h 30 0 (set_process (pid h) (set_port port m)) ms);
    reflexivity.
Qed.





(** X21.  When no port from 8000 to 65535 can be listened on,
    [startBackend] spawns nothing and changes nothing in the main process:
    it shows the error of port 65536 and returns. *)
Theorem startBackend_without_port (h : Host) (w : World) :
  (forall p, (8000 <= p <= 65535)%N -> listens h p = false) ->
  startBackend h w =
  {| main := main w;
     dialogs := dialogs w ++
                [(lit "Backend Error",
                  lit "Failed to start backend: " ++ range_error h 65536)];
     children := children w;
     waited_ms := waited_ms w |}.
Proof.
  intros Hnone. unfold startBackend.
  destruct (findAvailablePort h 8000) as [p|q] eqn:Hf.
  - destruct (findAvailablePort_bound_listens h 8000 p ltac:(lia) Hf)
      as (Hl & Hr).
    rewrite Hnone in Hl by exact Hr. discriminate.
  - unfold findAvailablePort in Hf.
    destruct (probe_from_bad h _ _ _ Hf) as (Hq & _).
    subst q. reflexivity.
Qed.

End StartFacts.

(** ** The address of the backend and the configuration dialog *)

Section ApiFacts.
Context {P : Platform}.
Import Supervisor Backend Api.

(** X22.  The api object keeps the address it got at its first call: if
    that address is not empty, every later call answers with it, wherever
    the backend is by then, for instance on another port after a restart;
    only [resetBaseUrl] makes the next call ask again.  [getBaseUrl], which
    [handleSubmit] calls for every turn, gives the address of the moment. *)
Theorem api_keeps_first_address (rt1 rt2 : Runtime) :
  getBaseUrl rt1 <> [] ->
  getBaseUrlCached rt2 (snd (getBaseUrlCached rt1 new_ApiService))
  = (getBaseUrl rt1, snd (getBaseUrlCached rt1 new_ApiService))
  /\ fst (getBaseUrlCached rt2
            (resetBaseUrl (snd (getBaseUrlCached rt1 new_ApiService))))
     = getBaseUrl rt2.
Proof.
  intros H. split; [|reflexivity].
  unfold getBaseUrlCached. simpl.
  destruct (getBaseUrl rt1); [contradiction|reflexivity].
Qed.

Lemma getBaseUrlCached_again (rt : Runtime) (a : ApiService) :
  fst (getBaseUrlCached rt (snd (getBaseUrlCached rt a)))
  = fst (getBaseUrlCached rt a).
Proof.
  unfold getBaseUrlCached.
  destruct (baseUrl a) as [[|c u]|] eqn:Hb; simpl; rewrite ?Hb;
    try reflexivity; destruct (getBaseUrl rt); reflexivity.
Qed.

(** X23.  Once the calls it awaits have settled, with a [reply] each,
    [handleSaveConfig] ends with isSaving false.  It closes
    the dialog exactly when every call it made succeeded; it posts the
    settings once and asks for a refresh of the database only if that was
    wanted and the settings were saved, at the same address. *)
Theorem handleSaveConfig_outcome
        (rt : Runtime) (shouldRefresh : bool) (update refresh : reply)
        (ui : ConfigUI) :
  isSaving (handleSaveConfig rt shouldRefresh update refresh ui) = false
  /\ isConfigOpen (handleSaveConfig rt shouldRefresh update refresh ui) =
       (if succeeded (lit "Failed to update configuration") update
           && (negb shouldRefresh
               || succeeded (lit "Failed to refresh database") refresh)
        then false else isConfigOpen ui)
  /\ requested (handleSaveConfig rt shouldRefresh update refresh ui) =
       requested ui
       ++ (fst (getBaseUrlCached rt (api ui)) ++ lit "/settings", lit "POST")
       :: (if succeeded (lit "Failed to update configuration") update
              && shouldRefresh
           then [(fst (getBaseUrlCached rt (api ui)) ++ lit "/refresh",
                  lit "POST")]
           else []).
Proof.
  pose proof (getBaseUrlCached_again rt (api ui)) as Hagain.
  unfold handleSaveConfig, succeeded, post.
  destruct (settle (lit "Failed to update configuration") update) as [[]|m1];
    destruct shouldRefresh;
    try destruct (settle (lit "Failed to refresh database") refresh) as [[]|m2];
    simpl; destruct (getBaseUrlCached rt (api ui)) as [base api1] eqn:Hc;
    simpl in Hagain |- *;
    try (destruct (getBaseUrlCached rt api1) as [base2 api2] eqn:Hc2;
         simpl in Hagain |- *; subst base2);
    rewrite <- ?app_assoc; repeat split.
Qed.

End ApiFacts.

(** ** Instances of the further properties *)

Section MoreRuns.
Import Reference Examples Supervisor Backend BackendExamples MoreExamples.
#[local] Existing Instance platform.
Local Abbreviation hello := (lit "hello").

(** Two blanks are not a message. *)
Lemma submit_guard_witness :
  (forallb is_space (lit "  ") = true \/ isProcessing idle = true)
  /\ handleSubmit (lit "  ") baseUrl (Body [scenario] Eof) idle = Some idle.
Proof.
  split; [left; reflexivity|].
  apply (@submit_guard platform (lit "  ") baseUrl (Body [scenario] Eof) idle).
  left. reflexivity.
Defined.

(** The scenario sends its one request. *)
Lemma submit_sends_one_request_witness :
  trim hello <> []
  /\ isProcessing idle = false
  /\ handleSubmit hello baseUrl (Body [scenario] Eof) idle
     = Some (setIsProcessing false (state (opened_with hi_there [])))
  /\ sent (setIsProcessing false (state (opened_with hi_there [])))
     = sent idle ++ [{| url := baseUrl ++ lit "/chat/stream";
                        method := lit "POST";
                        body_message := trim hello |}].
Proof.
  split; [discriminate|]. split; [reflexivity|]. split; [reflexivity|].
  apply (@submit_sends_one_request platform hello baseUrl
           (Body [scenario] Eof) idle
           (setIsProcessing false (state (opened_with hi_there []))));
    [discriminate|reflexivity|reflexivity].
Defined.


(** The connection breaks after the first token. *)
Lemma read_rejection_rolls_back_witness :
  trim hello <> []
  /\ isProcessing idle = false
  /\ apply_events (stream_events [hi_line])
       {| state := begin_turn (trim hello) baseUrl idle; messageContent := [] |}
     = Normal (opened_with (answer (lit "Hi") None false) (lit "Hi"))
  /\ exists st',
       handleSubmit hello baseUrl
         (Body [hi_line] (ReadRejects (lit "network error"))) idle = Some st'
       /\ messages st' = messages idle ++ [user_message (trim hello)]
       /\ error st' = Some (lit "network error")
       /\ isProcessing st' = false.
Proof.
  split; [discriminate|]. split; [reflexivity|]. split; [reflexivity|].
  apply (@read_rejection_rolls_back platform hello baseUrl (lit "network error")
           [hi_line] idle
           (opened_with (answer (lit "Hi") None false) (lit "Hi")));
    [discriminate|reflexivity|reflexivity].
Defined.

(** sources, a token, then a line that does not parse. *)
Lemma content_is_accumulated_text_witness :
  messages (state opened) = [greeting; hello_user] ++ [placeholder]
  /\ role (P := platform) placeholder = assistant
  /\ content (P := platform) placeholder = messageContent opened
  /\ exists t' m',
       final (apply_events
                [Ok (ev_sources a_pdf); Ok (ev_token (lit "Hi")); Err SyntaxError]
                opened) = Some t'
       /\ messages (state t') = [greeting; hello_user] ++ [m']
       /\ content m' = messageContent t'.
Proof.
  split; [reflexivity|]. split; [reflexivity|]. split; [reflexivity|].
  apply (@content_is_accumulated_text platform
           [Ok (ev_sources a_pdf); Ok (ev_token (lit "Hi")); Err SyntaxError]
           opened [greeting; hello_user] placeholder);
    reflexivity.
Defined.

(** The two tokens of the scenario. *)
Lemma tokens_concatenate_witness :
  [lit "Hi"; lit " there"] <> []
  /\ messages (state opened) = [greeting; hello_user] ++ [placeholder]
  /\ role (P := platform) placeholder = assistant
  /\ apply_events (map (fun s => Ok (ev_token s)) [lit "Hi"; lit " there"]) opened
     = Normal
         {| state :=
              setMessages
                (fun _ => [greeting; hello_user] ++
                          [{| role := assistant;
                              content := messageContent opened
                                           ++ concat [lit "Hi"; lit " there"];
                              sources := sources (P := platform) placeholder;
                              isThinking := Some false |}])
                (state opened);
            messageContent := messageContent opened
                                ++ concat [lit "Hi"; lit " there"] |}.
Proof.
  split; [discriminate|]. split; [reflexivity|]. split; [reflexivity|].
  apply (@tokens_concatenate platform [lit "Hi"; lit " there"] opened
           [greeting; hello_user] placeholder);
    [discriminate|reflexivity|reflexivity].
Defined.

(** Two blanks before a record and a carriage return after it. *)
Lemma line_spaces_ignored_witness :
  forallb is_space [32; 32]%N = true
  /\ forallb is_space [13]%N = true
  /\ decode_line ([32; 32]%N ++ text "data: {'type':'done'}" ++ [13]%N)
     = decode_line (text "data: {'type':'done'}")
  /\ process_line ([32; 32]%N ++ text "data: {'type':'done'}" ++ [13]%N) opened
     = process_line (text "data: {'type':'done'}") opened.
Proof.
  split; [reflexivity|]. split; [reflexivity|].
  apply (@line_spaces_ignored platform [32; 32]%N
           (text "data: {'type':'done'}") [13]%N opened);
    reflexivity.
Defined.

(** A stream made of a comment line. *)
Lemma empty_stream_leaves_placeholder_witness :
  trim hello <> []
  /\ isProcessing idle = false
  /\ stream_events [ping_line] = []
  /\ exists st',
       handleSubmit hello baseUrl (Body [ping_line] Eof) idle = Some st'
       /\ messages st' = messages idle ++ [user_message (trim hello); placeholder]
       /\ error st' = None
       /\ isProcessing st' = false.
Proof.
  split; [discriminate|]. split; [reflexivity|]. split; [reflexivity|].
  apply (@empty_stream_leaves_placeholder platform hello baseUrl [ping_line] idle);
    [discriminate|reflexivity|reflexivity].
Defined.

(** A token, then a token whose line is not ended. *)
Lemma unterminated_line_dropped_witness :
  snd (decode (P := platform) decoder_init (concat [hi_line; unended]))
  = text "data: {'type':'token','content':'Hi'}"
      ++ LF :: text "data: {'type':'token','content':'late'}"
  /\ ~ In LF (text "data: {'type':'token','content':'late'}")
  /\ read_loop process_line [hi_line; unended] new_reader opened
     = for_lines process_line
         (split (text "data: {'type':'token','content':'Hi'}")) opened.
Proof.
  assert (Htail : ~ In LF (text "data: {'type':'token','content':'late'}")).
  { intros Hin. vm_compute in Hin.
    repeat (destruct Hin as [Hin|Hin]; [discriminate|]). exact Hin. }
  split; [reflexivity|]. split; [exact Htail|].
  apply (@unterminated_line_dropped platform Turn process_line
           [hi_line; unended]
           (text "data: {'type':'token','content':'Hi'}")
           (text "data: {'type':'token','content':'late'}") opened);
    [reflexivity|exact Htail].
Defined.

(** A token, then done, then the end of the stream. *)
Lemma done_is_optional_witness :
  has_type (P := platform) ev_done (lit "done") = true
  /\ finish Eof (apply_events ([Ok (ev_token (lit "Hi"))] ++ [Ok ev_done]) opened)
     = finish Eof (apply_events [Ok (ev_token (lit "Hi"))] opened).
Proof.
  split; [reflexivity|].
  apply (@done_is_optional platform [Ok (ev_token (lit "Hi"))] ev_done Eof opened).
  reflexivity.
Defined.

(** Port 8000 is taken, port 8001 is free. *)
Lemma findAvailablePort_first_free_witness :
  (0 < 8000)%N
  /\ findAvailablePort busy_8000 8000 = Bound 8001
  /\ listens busy_8000 8001 = true
  /\ (8000 <= 8001 <= 65535)%N
  /\ forall q, (8000 <= q < 8001)%N -> listens busy_8000 q = false.
Proof.
  split; [reflexivity|]. split; [reflexivity|].
  apply (findAvailablePort_first_free busy_8000 8000 8001);
    reflexivity.
Defined.

(** Every port refused, from 65530 on. *)
Lemma findAvailablePort_exhausted_witness :
  findAvailablePort no_port 65530 = BadPort 65536
  /\ 65536%N = N.max 65530 65536
  /\ forall p, (65530 <= p <= 65535)%N -> listens no_port p = false.
Proof.
  split; [reflexivity|].
  apply (findAvailablePort_exhausted no_port 65530 65536). reflexivity.
Defined.

(** The backend answers the third request. *)
Lemma waitForBackend_first_answer_witness :
  2 < 30
  /\ health busy_8000 (backendPort probing) 2 = true
  /\ (forall j, j < 2 -> health busy_8000 (backendPort probing) j = false)
  /\ waitForBackend busy_8000 30 probing 0
     = Responding (set_ready probing) (0 + 1000 * N.of_nat 2).
Proof.
  assert (Hbefore : forall j, j < 2 ->
                              health busy_8000 (backendPort probing) j = false).
  { intros j Hj. destruct j as [|[|j]]; [reflexivity|reflexivity|lia]. }
  split; [lia|]. split; [reflexivity|]. split; [exact Hbefore|].
  apply (waitForBackend_first_answer busy_8000 30 2 probing 0);
    [lia|reflexivity|exact Hbefore].
Defined.

(** The backend never answers. *)
Lemma waitForBackend_gives_up_witness :
  (forall j, j < 30 -> health silent (backendPort probing) j = false)
  /\ waitForBackend silent 30 probing 0
     = GaveUp (lit "Backend failed to start after 30 seconds") probing
              (0 + 1000 * N.of_nat 30).
Proof.
  split; [intros j Hj; reflexivity|].
  apply (waitForBackend_gives_up silent 30 probing 0).
  intros j Hj. reflexivity.
Defined.

(** Two exits, one clean and one by signal, with the window shown. *)
Lemma every_exit_schedules_a_restart_witness :
  window_alive ready_with_window = true
  /\ timers (exits [(Some 0%Z, None); (None, Some (lit "SIGTERM"))]
               ready_with_window)
     = timers ready_with_window
         ++ repeat {| handler := Supervisor.startBackend; delay_ms := 5000 |}
                   (length [(Some 0%Z, @None jsstring);
                            (None, Some (lit "SIGTERM"))]).
Proof.
  split; [reflexivity|].
  apply (every_exit_schedules_a_restart
           [(Some 0%Z, None); (None, Some (lit "SIGTERM"))] ready_with_window).
  reflexivity.
Defined.

(** The first start on the machine where port 8000 is taken. *)
Lemma startBackend_succeeds_witness :
  findAvailablePort busy_8000 8000 = Bound 8001
  /\ userPaths busy_8000 = Ok data_paths
  /\ 2 < 30
  /\ health busy_8000 8001 2 = true
  /\ (forall j, j < 2 -> health busy_8000 8001 j = false)
  /\ backendPort (main (startBackend busy_8000 at_launch)) = 8001%N
  /\ backendReady (main (startBackend busy_8000 at_launch)) = true
  /\ backendProcess (main (startBackend busy_8000 at_launch))
     = Some (pid busy_8000)
  /\ children (startBackend busy_8000 at_launch)
     = children at_launch
         ++ [(pid busy_8000, backend_child busy_8000 data_paths 8001)]
  /\ property (lit "BACKEND_PORT")
       (env (backend_child busy_8000 data_paths 8001))
     = Some (port_text 8001)
  /\ get_backend_url (main (startBackend busy_8000 at_launch))
     = lit "http://127.0.0.1:" ++ port_text 8001
  /\ dialogs (startBackend busy_8000 at_launch) = dialogs at_launch
  /\ waited_ms (startBackend busy_8000 at_launch)
     = (waited_ms at_launch + 1000 * N.of_nat 2)%N.
Proof.
  assert (Hbefore : forall j, j < 2 -> health busy_8000 8001 j = false).
  { intros j Hj. destruct j as [|[|j]]; [reflexivity|reflexivity|lia]. }
  split; [reflexivity|]. split; [reflexivity|]. split; [lia|].
  split; [reflexivity|]. split; [exact Hbefore|].
  apply (startBackend_succeeds busy_8000 at_launch 8001 data_paths 2);
    [reflexivity|reflexivity|lia|reflexivity|exact Hbefore].
Defined.


(** What the handlers leave behind on that path: the child that logged
    the start of its server is marked ready though the start timed out;
    the child that could not be spawned has two error boxes. *)
Lemma timed_out_with_handlers :
  backendReady (main (Handlers.startBackend silent unreachable at_launch)) = true
  /\ dialogs (Handlers.startBackend silent unreachable at_launch)
     = [(lit "Backend Error",
         lit "Failed to start backend: Backend failed to start after 30 seconds")]
  /\ backendReady (main (Handlers.startBackend silent not_spawned at_launch))
     = false
  /\ dialogs (Handlers.startBackend silent not_spawned at_launch)
     = [(lit "Backend Error",
         lit "Failed to start backend: spawn /res/backend/venv/bin/python ENOENT");
        (lit "Backend Error",
         lit "Failed to start backend: Backend failed to start after 30 seconds")].
Proof. repeat split; reflexivity. Qed.

(** The first start with every port refused. *)
Lemma startBackend_without_port_witness :
  (forall p, (8000 <= p <= 65535)%N -> listens no_port p = false)
  /\ startBackend no_port at_launch
     = {| main := main at_launch;
          dialogs := dialogs at_launch ++
                     [(lit "Backend Error",
                       lit "Failed to start backend: "
                         ++ range_error no_port 65536)];
          children := children at_launch;
          waited_ms := waited_ms at_launch |}.
Proof.
  split; [intros p Hp; reflexivity|].
  apply (startBackend_without_port no_port at_launch).
  intros p Hp. reflexivity.
Defined.

(** The backend on port 8000 at the first call, on 8001 later. *)
Lemma api_keeps_first_address_witness :
  Api.getBaseUrl (window_on 8000) <> []
  /\ Api.getBaseUrlCached (window_on 8001)
       (snd (Api.getBaseUrlCached (window_on 8000) Api.new_ApiService))
     = (Api.getBaseUrl (window_on 8000),
        snd (Api.getBaseUrlCached (window_on 8000) Api.new_ApiService))
  /\ fst (Api.getBaseUrlCached (window_on 8001)
            (Api.resetBaseUrl
               (snd (Api.getBaseUrlCached (window_on 8000) Api.new_ApiService))))
     = Api.getBaseUrl (window_on 8001).
Proof.
  split; [discriminate|].
  apply (api_keeps_first_address (window_on 8000) (window_on 8001)).
  discriminate.
Defined.

End MoreRuns.
